(** * deno-box: the seeded name sampler and the project-name resolver

    A shallow embedding of [RandomName] (random-name.ts) and of
    [getProjectName] (main.ts, and its older monolithic copy), with the
    properties the design document states about them; and of the program
    around them, [expandPath] and [ensureRoot] (utils.ts), [main] with
    [initProject] and [addLibraries] (main.ts, and the older monolithic
    [main]) and [initVSCodeProject] (vscode.ts), with further properties
    read off the code. *)

From Stdlib Require Import ZArith Lia SpecFloat Ascii.
From stdpp Require Import base decidable option list strings pretty gmap.

Local Open Scope Z_scope.

(** ** JavaScript numbers

    A JS number is an IEEE 754 binary64 value.  The Standard Library's
    [spec_float] with [prec = 53] and [emax = 1024] is that format, and
    [SFmul] is its correctly rounded product (round to nearest, ties to
    even). *)
Module Number.

Definition prec : Z := 53.
Definition emax : Z := 1024.

Definition number : Type := spec_float.

(** [x * y] on numbers. *)
Definition mul (x y : number) : number := SFmul prec emax x y.

(** The number an integer literal or an [arr.length] denotes. *)
Definition of_Z (n : Z) : number := binary_normalize prec emax n 0 false.

(** [Number.MAX_SAFE_INTEGER], 2^53 - 1. *)
Definition MAX_SAFE_INTEGER : number := of_Z (2 ^ 53 - 1).

(** What [Math.floor] returns is integer valued, NaN or infinite; it is
    kept by its mathematical value (the sign of a zero result is dropped:
    neither indexing nor string conversion reads it). *)
Inductive integral : Type :=
| Int (k : Z)
| NaN
| Infinity (negative : bool).

Definition Math_floor (x : number) : integral :=
  match x with
  | S754_zero _ => Int 0
  | S754_finite s m e => Int (Z.shiftl (cond_Zopp s (Z.pos m)) e)
  | S754_infinity s => Infinity s
  | S754_nan => NaN
  end.

(** The contract of a pseudo-random draw: a binary64 value in [0, 1). *)
Definition in_unit (x : number) : bool :=
  valid_binary prec emax x
  && SFleb (S754_zero false) x
  && SFltb x (of_Z 1).

End Number.

(** ** Completions

    A call either returns or throws; the two exceptions the modelled code
    can raise are kept apart. *)
Inductive exn : Type := TypeError | RangeError.

Inductive completion (A : Type) : Type :=
| Normal (a : A)
| Throw (e : exn).
Arguments Normal {A} a.
Arguments Throw {A} e.

#[global] Instance completion_ret : MRet completion := fun A a => Normal a.

#[global] Instance completion_bind : MBind completion := fun A B k c =>
  match c with
  | Normal a => k a
  | Throw e => Throw e
  end.

#[global] Instance completion_fmap : FMap completion := fun A B f c =>
  match c with
  | Normal a => Normal (f a)
  | Throw e => Throw e
  end.

(** ** Values the runtime supplies *)

(** A number in [0, 1): what [Math.random()] and a seeded generator of
    [@std/random] return. *)
Record unit_number : Type := UnitNumber {
  unit_value : Number.number;
  unit_value_ok : Number.in_unit unit_value = true
}.

(** [BigInt(x)] for the result of [Math.floor]: a RangeError unless the
    number is an integer. *)
Definition BigInt (x : Number.integral) : completion Z :=
  match x with
  | Number.Int k => Normal k
  | _ => Throw RangeError
  end.

(** [String(x)] for the result of [Math.floor].  An integer prints in
    decimal (below 10^21, beyond which JS switches to exponent notation). *)
Definition Number_toString (x : Number.integral) : string :=
  match x with
  | Number.Int k => pretty k
  | Number.NaN => "NaN"
  | Number.Infinity false => "Infinity"
  | Number.Infinity true => "-Infinity"
  end.

(** [arr[x]] for the result of [Math.floor]: [None] is [undefined]. *)
Definition array_get {T : Type} (arr : list T) (x : Number.integral)
  : option T :=
  match x with
  | Number.Int k => if 0 <=? k then arr !! Z.to_nat k else None
  | _ => None
  end.

(** String conversion of a word that may be [undefined]. *)
Definition String_of (w : option string) : string :=
  match w with
  | Some s => s
  | None => "undefined"
  end.

(** [word.charAt(0)] and [word.slice(1)]. *)
Definition charAt0 (word : string) : string :=
  match word with
  | EmptyString => EmptyString
  | String c _ => String c EmptyString
  end.

Definition slice1 (word : string) : string :=
  match word with
  | EmptyString => EmptyString
  | String _ rest => rest
  end.

(** A string is truthy when it is not empty. *)
Definition truthy (s : string) : bool :=
  match s with
  | EmptyString => false
  | String _ _ => true
  end.

(** The seeded generator of [@std/random]: [randomSeeded(seed)] returns a
    closure over a hidden cursor, and each call of the closure returns a
    number in [0, 1) and advances the cursor. *)
Class Prng : Type := {
  prng_state : Type;
  randomSeeded : Z -> prng_state;
  prng_call : prng_state -> unit_number * prng_state
}.

(** [assets/names.json]: the two vocabularies. *)
Class Names : Type := {
  adjectives : list string;
  animals : list string
}.

(** [String.prototype.toUpperCase], whose Unicode case tables belong to the
    engine. *)
Class Locale : Type := {
  toUpperCase : string -> string
}.

(** ** random-name.ts *)

Module RandomNameOptions.
Record t : Type := Build {
  seed : option Z;
  separator : option string;
  capitalize : option bool;
  addNumbers : option bool
}.

(** [{}] *)
Definition empty : t :=
  {| seed := None; separator := None; capitalize := None;
     addNumbers := None |}.
End RandomNameOptions.

Module RandomName.
Section Sampler.
Context `{Prng, Names, Locale}.

Record t : Type := Build {
  seed : Z;
  nextRnd : prng_state;
  separator : string;
  capitalize : bool;
  addNumbers : bool
}.

(** [options.seed || BigInt(Math.floor(Math.random() *
    Number.MAX_SAFE_INTEGER))]: [0n] is falsy.  [random] is the value
    [Math.random()] returns when it is called. *)
Definition seed_or_random (o : option Z) (random : unit_number)
  : completion Z :=
  let fresh :=
    BigInt (Number.Math_floor
              (Number.mul (unit_value random) Number.MAX_SAFE_INTEGER)) in
  match o with
  | Some s => if s =? 0 then fresh else Normal s
  | None => fresh
  end.

(** [options.separator || ' ']: the empty string is falsy. *)
Definition separator_or_space (o : option string) : string :=
  match o with
  | Some s => if truthy s then s else " "
  | None => " "
  end.

(** [options.flag || false] *)
Definition flag_or_false (o : option bool) : bool :=
  match o with
  | Some b => b
  | None => false
  end.

Definition constructor (options : RandomNameOptions.t)
    (random : unit_number) : completion t :=
  seed ← seed_or_random (RandomNameOptions.seed options) random;
  Normal
    {| seed := seed;
       nextRnd := randomSeeded seed;
       separator := separator_or_space (RandomNameOptions.separator options);
       capitalize := flag_or_false (RandomNameOptions.capitalize options);
       addNumbers := flag_or_false (RandomNameOptions.addNumbers options) |}.

Definition with_nextRnd (this : t) (g : prng_state) : t :=
  {| seed := seed this; nextRnd := g; separator := separator this;
     capitalize := capitalize this; addNumbers := addNumbers this |}.

(** The index [Math.floor(this.nextRnd() * length)] of a draw. *)
Definition scaled (v : unit_number) (length : Z) : Number.integral :=
  Number.Math_floor (Number.mul (unit_value v) (Number.of_Z length)).

Definition pick {T : Type} (arr : list T) (this : t) : option T * t :=
  let '(v, g) := prng_call (nextRnd this) in
  (array_get arr (scaled v (Z.of_nat (length arr))), with_nextRnd this g).

(** The local [capitalize] of [next]: with the flag set,
    [word.charAt(0).toUpperCase() + word.slice(1)], which throws on
    [undefined]; otherwise the identity. *)
Definition capitalize_word (flag : bool) (word : option string)
  : completion (option string) :=
  if flag then
    match word with
    | Some w => Normal (Some (toUpperCase (charAt0 w) +:+ slice1 w))
    | None => Throw TypeError
    end
  else Normal word.

Definition next (this : t) : completion string * t :=
  let '(adjective, this1) := pick adjectives this in
  match capitalize_word (capitalize this) adjective with
  | Throw e => (Throw e, this1)
  | Normal a =>
    let '(animal, this2) := pick animals this1 in
    match capitalize_word (capitalize this) animal with
    | Throw e => (Throw e, this2)
    | Normal b =>
      let name := String_of a +:+ separator this +:+ String_of b in
      if addNumbers this then
        let '(v, g) := prng_call (nextRnd this2) in
        (Normal (name +:+ separator this
                      +:+ Number_toString (scaled v 100)),
         with_nextRnd this2 g)
      else (Normal name, this2)
    end
  end.

(** The results of [n] successive calls of [next]. *)
Fixpoint sequence (n : nat) (this : t) : list (completion string) :=
  match n with
  | O => []
  | S n' => let '(r, this') := next this in r :: sequence n' this'
  end.

(** The sampler after [n] calls of [next]. *)
Fixpoint after (n : nat) (this : t) : t :=
  match n with
  | O => this
  | S n' => after n' (next this).2
  end.

(** Construct a sampler and call [next] [n] times. *)
Definition run (options : RandomNameOptions.t) (random : unit_number)
    (n : nat) : completion (list (completion string)) :=
  this ← constructor options random;
  Normal (sequence n this).
End Sampler.
End RandomName.

(** ** options.ts: the command line options *)

Module Options.
(** [copy] is [string | false]: here [None] is [false] (or absent), and
    an absent [name] is [None].  The parser's defaults are [copy: false]
    and [name: ""]. *)
Record t : Type := Build {
  copy : option string;
  help : option bool;
  root : string;
  writeConfig : option bool;
  name : option string;
  add : option (list string);
  vscode : option bool
}.

(** The truthiness test [if (options.name)], [if (options.copy)]: the
    string when it is present and not empty. *)
Definition supplied (field : option string) : option string :=
  match field with
  | Some s => if truthy s then Some s else None
  | None => None
  end.
End Options.

(** What one run of [getProjectName] does: the paths handed to
    [existsSync], in order, and the result, [None] while the loop has not
    finished within the steps allowed. *)
Record resolution : Type := Resolution {
  result : option (completion string);
  probes : list string
}.

Definition probed (path : string) (r : resolution) : resolution :=
  {| result := result r; probes := path :: probes r |}.

(** The directory snapshot in which exactly the names of [taken] exist
    under [root]. *)
Definition directory (root : string) (taken : gset string) (path : string)
  : bool :=
  bool_decide
    (path ∈ (set_map (fun x => root +:+ "/" +:+ x) taken : gset string)).

(** ** main.ts *)

Module Main.
Section Resolver.
Context `{Prng, Names, Locale}.
Variable existsSync : string -> bool.

(** The [while] loop of the copy branch, entered with [x] and [i]; the
    counter is a number and stays an exact integer below 2^53. *)
Fixpoint copy_loop (fuel : nat) (options : Options.t) (base : string)
    (x : string) (i : N) : resolution :=
  match fuel with
  | O => {| result := None; probes := [] |}
  | S fuel' =>
    let path := Options.root options +:+ "/" +:+ x in
    if existsSync path then
      probed path
        (copy_loop fuel' options base
           (base +:+ "-copy-" +:+ pretty i) (i + 1)%N)
    else {| result := Some (Normal x); probes := [path] |}
  end.

(** The [do ... while] loop of the random branch. *)
Fixpoint random_loop (fuel : nat) (options : Options.t)
    (randomName : RandomName.t) : resolution :=
  match fuel with
  | O => {| result := None; probes := [] |}
  | S fuel' =>
    let '(r, randomName') := RandomName.next randomName in
    match r with
    | Throw e => {| result := Some (Throw e); probes := [] |}
    | Normal projectName =>
      let path := Options.root options +:+ "/" +:+ projectName in
      if existsSync path then
        probed path (random_loop fuel' options randomName')
      else {| result := Some (Normal projectName); probes := [path] |}
    end
  end.

Definition getProjectName (fuel : nat) (options : Options.t)
    (random : unit_number) : resolution :=
  match Options.supplied (Options.name options) with
  | Some name => {| result := Some (Normal name); probes := [] |}
  | None =>
    match Options.supplied (Options.copy options) with
    | Some copy =>
      copy_loop fuel options copy (copy +:+ "-copy") 1%N
    | None =>
      match
        RandomName.constructor
          {| RandomNameOptions.seed := None;
             RandomNameOptions.separator := Some "-";
             RandomNameOptions.capitalize := None;
             RandomNameOptions.addNumbers := Some true |}
          random
      with
      | Throw e => {| result := Some (Throw e); probes := [] |}
      | Normal randomName => random_loop fuel options randomName
      end
    end
  end.
End Resolver.
End Main.

(** ** The older monolithic main *)

Module Monolith.
Section Resolver.
Context `{Prng, Names, Locale}.
Variable existsSync : string -> bool.

Fixpoint copy_loop (fuel : nat) (options : Options.t) (base : string)
    (x : string) (i : N) : resolution :=
  match fuel with
  | O => {| result := None; probes := [] |}
  | S fuel' =>
    let path := Options.root options +:+ "/" +:+ x in
    if existsSync path then
      probed path
        (copy_loop fuel' options base
           (base +:+ "-copy-" +:+ pretty i) (i + 1)%N)
    else {| result := Some (Normal x); probes := [path] |}
  end.

Fixpoint random_loop (fuel : nat) (options : Options.t)
    (randomName : RandomName.t) : resolution :=
  match fuel with
  | O => {| result := None; probes := [] |}
  | S fuel' =>
    let '(r, randomName') := RandomName.next randomName in
    match r with
    | Throw e => {| result := Some (Throw e); probes := [] |}
    | Normal projectName =>
      let path := Options.root options +:+ "/" +:+ projectName in
      if existsSync path then
        probed path (random_loop fuel' options randomName')
      else {| result := Some (Normal projectName); probes := [path] |}
    end
  end.

Definition getProjectName (fuel : nat) (options : Options.t)
    (random : unit_number) : resolution :=
  match Options.supplied (Options.name options) with
  | Some name => {| result := Some (Normal name); probes := [] |}
  | None =>
    match Options.supplied (Options.copy options) with
    | Some copy =>
      copy_loop fuel options copy (copy +:+ "-copy") 1%N
    | None =>
      match
        RandomName.constructor
          {| RandomNameOptions.seed := None;
             RandomNameOptions.separator := Some "-";
             RandomNameOptions.capitalize := None;
             RandomNameOptions.addNumbers := Some true |}
          random
      with
      | Throw e => {| result := Some (Throw e); probes := [] |}
      | Normal randomName => random_loop fuel options randomName
      end
    end
  end.
End Resolver.
End Monolith.

(** The candidates of the copy branch in the order the loop builds them:
    [base-copy], [base-copy-1], [base-copy-2], ... *)
Definition copy_candidate (base : string) (k : nat) : string :=
  match k with
  | O => base +:+ "-copy"
  | S _ => base +:+ "-copy-" +:+ pretty (N.of_nat k)
  end.

(** The path [getProjectName] hands to [existsSync] for a name. *)
Definition path_of (options : Options.t) (x : string) : string :=
  Options.root options +:+ "/" +:+ x.

(** The word [next] writes for a vocabulary entry: with the flag, its first
    character through [toUpperCase] and the rest as it is. *)
Definition capitalized `{Locale} (flag : bool) (w : string) : string :=
  if flag then toUpperCase (charAt0 w) +:+ slice1 w else w.

(** ** A deterministic test double

    A generator that cycles through 0, 1/4, 1/2, 3/4, started at the seed
    modulo 4; a two-by-two vocabulary; ASCII upper-casing. *)
Module TestDouble.

Definition zero : unit_number :=
  UnitNumber (S754_zero false) eq_refl.
Definition quarter : unit_number :=
  UnitNumber (S754_finite false 4503599627370496 (-54)) eq_refl.
Definition half : unit_number :=
  UnitNumber (S754_finite false 4503599627370496 (-53)) eq_refl.
Definition three_quarters : unit_number :=
  UnitNumber (S754_finite false 6755399441055744 (-53)) eq_refl.

(** The largest number below 1, [1 - 2^-53]. *)
Definition largest : unit_number :=
  UnitNumber (S754_finite false 9007199254740991 (-53)) eq_refl.

Inductive phase : Type := P0 | P1 | P2 | P3.

Definition start (seed : Z) : phase :=
  match seed mod 4 with
  | 0 => P0
  | 1 => P1
  | 2 => P2
  | _ => P3
  end.

Definition step (g : phase) : unit_number * phase :=
  match g with
  | P0 => (zero, P1)
  | P1 => (quarter, P2)
  | P2 => (half, P3)
  | P3 => (three_quarters, P0)
  end.

Definition prng : Prng :=
  {| prng_state := phase; randomSeeded := start; prng_call := step |}.

Definition names : Names :=
  {| adjectives := ["brave"; "calm"]; animals := ["otter"; "lynx"] |}.

Definition upper (c : Ascii.ascii) : Ascii.ascii :=
  let n := Ascii.N_of_ascii c in
  if ((97 <=? n) && (n <=? 122))%N then Ascii.ascii_of_N (n - 32) else c.

Fixpoint upper_string (s : string) : string :=
  match s with
  | EmptyString => EmptyString
  | String c rest => String (upper c) (upper_string rest)
  end.

Definition locale : Locale := {| toUpperCase := upper_string |}.

(** The sampler and the resolver over the test double. *)
Definition constructor := @RandomName.constructor prng.
Definition next := @RandomName.next prng names locale.
Definition after := @RandomName.after prng names locale.
Definition sequence := @RandomName.sequence prng names locale.
Definition run := @RandomName.run prng names locale.
Definition getProjectName := @Main.getProjectName prng names locale.

Definition seeded (s : Z) (separator : option string)
    (capitalize addNumbers : bool) : RandomNameOptions.t :=
  {| RandomNameOptions.seed := Some s;
     RandomNameOptions.separator := separator;
     RandomNameOptions.capitalize := Some capitalize;
     RandomNameOptions.addNumbers := Some addNumbers |}.

Definition options (name copy : option string) : Options.t :=
  {| Options.copy := copy; Options.help := Some false;
     Options.root := "/box"; Options.writeConfig := Some false;
     Options.name := name; Options.add := None;
     Options.vscode := Some false |}.

End TestDouble.

(** ** utils.ts *)

Module Utils.

(** [\w]: an ASCII letter, digit or underscore. *)
Definition is_word (c : ascii) : bool :=
  let n := N_of_ascii c in
  ((48 <=? n) && (n <=? 57) || (65 <=? n) && (n <=? 90)
   || (97 <=? n) && (n <=? 122) || (n =? 95))%N.

(** The longest run of word characters a string starts with: what a greedy
    [\w+] or [\w*] consumes. *)
Fixpoint word_prefix (s : string) : string :=
  match s with
  | EmptyString => EmptyString
  | String c rest =>
    if is_word c then String c (word_prefix rest) else EmptyString
  end.

(** A variable name: one or more word characters. *)
Fixpoint all_word (s : string) : bool :=
  match s with
  | EmptyString => true
  | String c rest => is_word c && all_word rest
  end.

Definition is_name (s : string) : bool := truthy s && all_word s.

(** Whether a string starts with a word character. *)
Definition starts_with_word (s : string) : bool :=
  match s with
  | EmptyString => false
  | String c _ => is_word c
  end.

(** [s.slice(n)] *)
Fixpoint slice (n : nat) (s : string) : string :=
  match n, s with
  | O, _ => s
  | S _, EmptyString => EmptyString
  | S n', String _ rest => slice n' rest
  end.

(** [s.startsWith(c)] for a one-character [c]. *)
Definition startsWith (c : ascii) (s : string) : bool :=
  match s with
  | EmptyString => false
  | String c' _ => Ascii.eqb c' c
  end.

(** One attempt of [/\$(\w+)|\${(\w+)}/] at the start of [s]: the captured
    name and the number of characters matched.  The first alternative is
    tried first; [\w+] is greedy, and giving characters back never helps,
    since what must follow is the end of the alternative or a brace. *)
Definition match_variable (s : string) : option (string * nat) :=
  match s with
  | EmptyString => None
  | String c rest =>
    if Ascii.eqb c "$" then
      let name1 := word_prefix rest in
      if truthy name1 then Some (name1, S (String.length name1))
      else
        match rest with
        | EmptyString => None
        | String b rest' =>
          if Ascii.eqb b "{" then
            let name2 := word_prefix rest' in
            if truthy name2
               && startsWith "}" (slice (String.length name2) rest')
            then Some (name2, (String.length name2 + 3)%nat)
            else None
          else None
        end
    else None
  end.

Section Environment.
(** [Deno.env] (with permission to read it) and [Deno.cwd()]. *)
Variable env : gmap string string.
Variable cwd : string.

(** [Deno.env.get(name) || ''] *)
Definition env_or_empty (name : string) : string :=
  match env !! name with
  | Some value => value
  | None => EmptyString
  end.

(** [path.replace(/\$(\w+)|\${(\w+)}/g, (_, name1, name2) => ...)]: the
    matches are found from left to right, each search starting where the
    previous match ended, and the text of a replacement is not searched
    again.  [skip] counts the characters of the current match still to be
    passed over. *)
Fixpoint replace_variables (skip : nat) (s : string) : string :=
  match s with
  | EmptyString => EmptyString
  | String c rest =>
    match skip with
    | S skip' => replace_variables skip' rest
    | O =>
      match match_variable s with
      | Some (name, matched) =>
        env_or_empty name +:+ replace_variables (Nat.pred matched) rest
      | None => String c (replace_variables 0 rest)
      end
    end
  end.

(** [Deno.env.get("HOME") || Deno.env.get("USERPROFILE")], when truthy. *)
Definition home : option string :=
  match Options.supplied (env !! "HOME") with
  | Some h => Some h
  | None => Options.supplied (env !! "USERPROFILE")
  end.

(** The replacement text of [path.replace(/^~/, home)]: [home] is a
    replacement pattern, in which [$$] stands for a dollar, [$&] for the
    match (the tilde), [$`] for the text before it (none) and [$'] for the
    text after it ([tail]); the pattern has no groups, so every other
    dollar stands for itself. *)
Fixpoint substitution (tail : string) (template : string) : string :=
  match template with
  | EmptyString => EmptyString
  | String c rest =>
    if Ascii.eqb c "$" then
      match rest with
      | EmptyString => String c EmptyString
      | String d rest' =>
        if Ascii.eqb d "$" then String "$" (substitution tail rest')
        else if Ascii.eqb d "&" then String "~" (substitution tail rest')
        else if Ascii.eqb d "`" then substitution tail rest'
        else if Ascii.eqb d "'" then tail +:+ substitution tail rest'
        else String c (substitution tail rest)
      end
    else String c (substitution tail rest)
  end.

Definition expandPath (path : string) : string :=
  let path1 :=
    if startsWith "~" path then
      match home with
      | Some h => substitution (slice1 path) h +:+ slice1 path
      | None => path
      end
    else path in
  let path2 :=
    if startsWith "." path1 then cwd +:+ slice1 path1 else path1 in
  replace_variables 0 path2.
End Environment.
End Utils.

(** Whether a string holds a dollar sign. *)
Fixpoint has_dollar (s : string) : bool :=
  match s with
  | EmptyString => false
  | String c rest => Ascii.eqb c "$" || has_dollar rest
  end.

(** ** The effects of the command line program

    What the program does to the world is kept as the list of its calls, in
    order; what the world answers comes from the host. *)

(** A value caught by [catch (err)]: an [Error] with its message, or
    anything else with its string conversion. *)
Inductive thrown : Type :=
| ErrorObject (message : string)
| OtherValue (text : string).

(** [err instanceof Error ? err.message : String(err)] *)
Definition describe (err : thrown) : string :=
  match err with
  | ErrorObject message => message
  | OtherValue text => text
  end.

Inductive event : Type :=
| ConsoleLog (args : list string)
| ConsoleError (args : list string)
| MkdirSync (path : string) (recursive : bool)
| ExistsSync (path : string)
| CopySync (src dest : string)
| WriteTextFileSync (path data : string)
| CommandOutput (command : string) (args : list string)
    (cwd : option string).

(** How a run ends when it does not return: [Deno.exit(code)], a rejection
    nobody catches, or not yet (a loop still running when the steps allowed
    run out). *)
Inductive stop : Type :=
| Exit (code : Z)
| Uncaught (err : thrown)
| UncaughtError (e : exn)
| Unfinished.

(** The host of a run: the file system and the processes as they answer
    during it, [path.join] of [@std/path], the text
    [JSON.stringify(launchSettings, null, 2)] of the launch settings asset,
    and the value of [Math.random()].  [command_output] is what
    [new Deno.Command(...).output()] resolves to, the success flag and the
    decoded stderr, or what it rejects with. *)
Class Host : Type := {
  existsSync : string -> bool;
  mkdirSync : string -> bool -> option thrown;
  copySync : string -> string -> option thrown;
  writeTextFileSync : string -> string -> option thrown;
  command_output :
    string -> list string -> option string -> thrown + bool * string;
  path_join : string -> string -> string;
  launchSettings_json : string;
  Math_random : unit_number
}.

Definition io (A : Type) : Type := (list event * (stop + A))%type.

#[global] Instance io_ret : MRet io := fun A a => ([], inr a).

#[global] Instance io_bind : MBind io := fun A B k m =>
  match m with
  | (events, inl s) => (events, inl s)
  | (events, inr a) =>
    let '(events', r) := k a in (events ++ events', r)
  end.

Definition emit (e : event) : io unit := ([e], inr tt).

Definition halt {A : Type} (s : stop) : io A := ([], inl s).

(** A call that may throw, outside any [try]. *)
Definition unguarded (e : event) (answer : option thrown) : io unit :=
  match answer with
  | None => emit e
  | Some err => ([e], inl (Uncaught err))
  end.

(** [await new Deno.Command(command, {args, cwd}).output()], reduced to its
    success flag and decoded stderr. *)
Definition run_command `{Host} (command : string) (args : list string)
    (cwd : option string) : io (bool * string) :=
  match command_output command args cwd with
  | inl err => ([CommandOutput command args cwd], inl (Uncaught err))
  | inr output => ([CommandOutput command args cwd], inr output)
  end.

(** [flag] as a condition, for an optional boolean. *)
Definition flag_set (flag : option bool) : bool :=
  match flag with
  | Some b => b
  | None => false
  end.

(** [list.join(", ")] *)
Fixpoint join (l : list string) : string :=
  match l with
  | [] => EmptyString
  | [x] => x
  | x :: rest => x +:+ ", " +:+ join rest
  end.

Definition quote : string := String "034" EmptyString.
Definition newline : string := String "010" EmptyString.

(** [JSON.stringify({ "deno.enable": true }, null, 2)] *)
Definition settings_json : string :=
  "{" +:+ newline +:+ "  " +:+ quote +:+ "deno.enable" +:+ quote
  +:+ ": true" +:+ newline +:+ "}".

(** [ensureRoot] of utils.ts. *)
Definition ensureRoot `{Host} (root : string) : io unit :=
  emit (MkdirSync root true);;
  match mkdirSync root true with
  | None => mret tt
  | Some err =>
    emit (ConsoleError ["Error creating root directory: " +:+ describe err]);;
    halt (Exit 1)
  end.

(** ** vscode.ts *)

Module VSCode.
Section VSCode.
Context `{Host}.

(** [writeJson(path, o)], given the text [JSON.stringify(o, null, 2)]. *)
Definition writeJson (path json : string) : io unit :=
  emit (WriteTextFileSync path json);;
  match writeTextFileSync path json with
  | None => mret tt
  | Some err =>
    emit (ConsoleError ["Error creating settings.json: " +:+ describe err]);;
    halt (Exit 1)
  end.

Definition initVSCodeProject (fullPath : string) : io unit :=
  let vscodeDir := path_join fullPath ".vscode" in
  emit (MkdirSync vscodeDir false);;
  match mkdirSync vscodeDir false with
  | Some err =>
    emit (ConsoleError
            ["Error creating .vscode directory: " +:+ describe err]);;
    halt (Exit 1)
  | None => mret tt
  end;;
  let settingsFile := path_join vscodeDir "settings.json" in
  writeJson settingsFile settings_json;;
  let launchFile := path_join vscodeDir "launch.json" in
  writeJson launchFile launchSettings_json;;
  emit (ConsoleLog ["Opening project in VSCode"]);;
  '(success, stderr) ← run_command "code" [fullPath] None;
  if (success : bool) then mret tt
  else
    emit (ConsoleError ["Error opening project in VSCode"]);;
    emit (ConsoleLog [stderr]);;
    halt (Exit 1).
End VSCode.
End VSCode.

(** ** main.ts: the program around [getProjectName] *)

(** A call of a [getProjectName]: its probes are calls of [existsSync]. *)
Definition resolve (r : resolution) : io string :=
  (ExistsSync <$> probes r,
   match result r with
   | None => inl Unfinished
   | Some (Throw e) => inl (UncaughtError e)
   | Some (Normal name) => inr name
   end).

Module Program.
Section Program.
Context `{Prng, Names, Locale, Host}.

Definition initProject (projectName : string) (options : Options.t)
  : io unit :=
  '(success, stderr) ← run_command "deno" ["init"; projectName]
             (Some (Options.root options));
  if (success : bool) then mret tt
  else
    emit (ConsoleError ["Error initializing project"]);;
    emit (ConsoleLog [stderr]);;
    halt (Exit 1).

Definition addLibraries (options : Options.t) (fullPath : string)
  : io unit :=
  match Options.add options with
  | Some (lib :: libs) =>
    emit (ConsoleLog ["Adding libraries:"; join (lib :: libs)]);;
    '(success, stderr) ← run_command "deno" ("add" :: lib :: libs) (Some fullPath);
    if (success : bool) then mret tt
    else
      emit (ConsoleError ["Error adding libraries"]);;
      emit (ConsoleLog [stderr]);;
      halt (Exit 1)
  | Some [] | None => mret tt
  end.

(** [main], from the options [getOptions()] returned. *)
Definition main (fuel : nat) (options : Options.t) : io unit :=
  ensureRoot (Options.root options);;
  projectName ←
    resolve (Main.getProjectName existsSync fuel options Math_random);
  match Options.supplied (Options.copy options) with
  | Some copy =>
    emit (ConsoleLog
            ["Copying project: " +:+ copy +:+ " to " +:+ projectName]);;
    let src := path_join (Options.root options) copy in
    let dest := path_join (Options.root options) projectName in
    unguarded (CopySync src dest) (copySync src dest)
  | None =>
    let fullPath := path_join (Options.root options) projectName in
    emit (ConsoleLog ["Creating project: " +:+ projectName]);;
    initProject projectName options;;
    addLibraries options fullPath;;
    emit (ConsoleLog
            ["Project created at " +:+ quote +:+ fullPath +:+ quote]);;
    if flag_set (Options.vscode options)
    then VSCode.initVSCodeProject fullPath
    else mret tt
  end.
End Program.
End Program.

(** ** The older monolithic main: the same steps written out in [main] *)

Module MonolithProgram.
Section Program.
Context `{Prng, Names, Locale, Host}.

Definition main (fuel : nat) (options : Options.t) : io unit :=
  ensureRoot (Options.root options);;
  projectName ←
    resolve (Monolith.getProjectName existsSync fuel options Math_random);
  match Options.supplied (Options.copy options) with
  | Some copy =>
    emit (ConsoleLog
            ["Copying project: " +:+ copy +:+ " to " +:+ projectName]);;
    let src := path_join (Options.root options) copy in
    let dest := path_join (Options.root options) projectName in
    unguarded (CopySync src dest) (copySync src dest)
  | None =>
    let fullPath := path_join (Options.root options) projectName in
    emit (ConsoleLog ["Creating project: " +:+ projectName]);;
    '(success, stderr) ← run_command "deno" ["init"; projectName]
               (Some (Options.root options));
    (if (success : bool) then mret tt
     else
       emit (ConsoleError ["Error initializing project"]);;
       emit (ConsoleLog [stderr]);;
       halt (Exit 1));;
    match Options.add options with
    | Some (lib :: libs) =>
      emit (ConsoleLog ["Adding libraries:"; join (lib :: libs)]);;
      '(success, stderr) ← run_command "deno" ("add" :: lib :: libs) (Some fullPath);
      if (success : bool) then mret tt
      else
        emit (ConsoleError ["Error adding libraries"]);;
        emit (ConsoleLog [stderr]);;
        halt (Exit 1)
    | Some [] | None => mret tt
    end;;
    emit (ConsoleLog
            ["Project created at " +:+ quote +:+ fullPath +:+ quote]);;
    if flag_set (Options.vscode options) then
      let vscodeDir := path_join fullPath ".vscode" in
      emit (MkdirSync vscodeDir false);;
      match mkdirSync vscodeDir false with
      | Some err =>
        emit (ConsoleError
                ["Error creating .vscode directory: " +:+ describe err]);;
        halt (Exit 1)
      | None => mret tt
      end;;
      let settingsFile := path_join vscodeDir "settings.json" in
      emit (WriteTextFileSync settingsFile settings_json);;
      match writeTextFileSync settingsFile settings_json with
      | Some err =>
        emit (ConsoleError
                ["Error creating settings.json: " +:+ describe err]);;
        halt (Exit 1)
      | None => mret tt
      end;;
      emit (ConsoleLog ["Opening project in VSCode"]);;
      '(success, stderr) ← run_command "code" [fullPath] None;
      if (success : bool) then mret tt
      else
        emit (ConsoleError ["Error opening project in VSCode"]);;
        emit (ConsoleLog [stderr]);;
        halt (Exit 1)
    else mret tt
  end.
End Program.
End MonolithProgram.

(** ** A host for the test double *)
Module TestHost.

(** Under [/box] the project [foo] exists; [deno init] succeeds, [deno add]
    fails; paths are joined with a slash. *)
Definition host : Host :=
  {| existsSync := directory "/box" {["foo"]};
     mkdirSync := fun _ _ => None;
     copySync := fun _ _ => None;
     writeTextFileSync := fun _ _ => None;
     command_output := fun command args _ =>
       match args with
       | "add" :: _ => inr (false, "no such package")
       | _ => inr (true, "")
       end;
     path_join := fun a b => a +:+ "/" +:+ b;
     launchSettings_json := "{}";
     Math_random := TestDouble.zero |}.

Definition main :=
  @Program.main TestDouble.prng TestDouble.names TestDouble.locale host.

Definition options (name copy : option string) (add : list string)
    (vscode : bool) : Options.t :=
  {| Options.copy := copy; Options.help := Some false;
     Options.root := "/box"; Options.writeConfig := Some false;
     Options.name := name; Options.add := Some add;
     Options.vscode := Some vscode |}.

(** The same host, but for a root that cannot be created and for files
    named [launch.json], which cannot be written. *)
Definition sealed : Host :=
  {| existsSync := directory "/box" {["foo"]};
     mkdirSync := fun path _ =>
       if String.eqb path "/sealed"
       then Some (ErrorObject "permission denied") else None;
     copySync := fun _ _ => None;
     writeTextFileSync := fun path _ =>
       if String.eqb path "/box/bar/.vscode/launch.json"
       then Some (OtherValue "read-only") else None;
     command_output := fun _ _ _ => inr (true, "");
     path_join := fun a b => a +:+ "/" +:+ b;
     launchSettings_json := "{}";
     Math_random := TestDouble.zero |}.

(** Options with the root that [sealed] cannot create. *)
Definition sealed_options : Options.t :=
  {| Options.copy := None; Options.help := Some false;
     Options.root := "/sealed"; Options.writeConfig := Some false;
     Options.name := Some "bar"; Options.add := Some [];
     Options.vscode := Some false |}.

End TestHost.

(** ** Reading a run *)

(** The external commands among the events. *)
Definition is_command (e : event) : bool :=
  match e with
  | CommandOutput _ _ _ => true
  | _ => false
  end.

(** A run follows a plan of commands when the commands it runs are the
    plan, or a first part of it if the run stops early. *)
Definition follows {A : Type} (plan : list event) (m : io A) : Prop :=
  match m with
  | (events, inr _) => filter is_command events = plan
  | (events, inl _) => filter is_command events `prefix_of` plan
  end.

(** A run exits loudly when every [Deno.exit] it reaches has code 1 and
    comes after a line on [console.error]. *)
Definition exits_loudly {A : Type} (m : io A) : Prop :=
  forall events code,
    m = (events, inl (Exit code)) ->
    code = 1 /\ exists args, ConsoleError args ∈ events.

(** The commands of a project creation: [deno init], [deno add] when there
    are libraries to add, [code] when the editor is asked for. *)
Definition plan `{Host} (options : Options.t) (projectName : string)
  : list event :=
  let fullPath := path_join (Options.root options) projectName in
  [CommandOutput "deno" ["init"; projectName] (Some (Options.root options))]
  ++ match Options.add options with
     | Some (lib :: libs) =>
       [CommandOutput "deno" ("add" :: lib :: libs) (Some fullPath)]
     | Some [] | None => []
     end
  ++ (if flag_set (Options.vscode options)
      then [CommandOutput "code" [fullPath] None] else []).

(** A call of the file system or a command that went well: nothing thrown,
    and for a command the success flag set. *)
Definition succeeded `{Host} (e : event) : Prop :=
  match e with
  | MkdirSync path recursive => mkdirSync path recursive = None
  | CopySync src dest => copySync src dest = None
  | WriteTextFileSync path data => writeTextFileSync path data = None
  | CommandOutput command args cwd =>
    exists stderr, command_output command args cwd = inr (true, stderr)
  | ConsoleLog _ | ConsoleError _ | ExistsSync _ => True
  end.

(** A vocabulary without adjectives, over the test double. *)
Module TestEdge.

Definition names : Names :=
  {| adjectives := []; animals := ["otter"; "lynx"] |}.

Definition next :=
  @RandomName.next TestDouble.prng names TestDouble.locale.

(** An environment with a home directory and two variables. *)
Definition env : gmap string string :=
  {[ "HOME" := "/home/u"; "BOX" := "sandbox"; "NESTED" := "$BOX" ]}.


End TestEdge.

(** * Properties *)

(** ** Correctly rounded products of a number in [0, 1) by an integer

    For [v] in [0, 1) and an integer [0 < n < 2^53] the rounded product
    [v * n] stays below [n], so its floor is an index in [0, n).  Rounding
    to nearest could only reach [n] from a product within half an ulp of
    it, and [v <= 1 - 2^-53] keeps the product further away. *)
Section NumberFacts.
Import Number.

#[local] Ltac hide_pows :=
  repeat match goal with
  | |- context [Z.pow ?a ?b] =>
      let x := fresh "pw" in set (x := Z.pow a b) in *; clearbody x
  | H : context [Z.pow ?a ?b] |- _ =>
      let x := fresh "pw" in set (x := Z.pow a b) in *; clearbody x
  end.

Lemma digits2_pos_bounds (m : positive) :
  2 ^ (Z.pos (digits2_pos m) - 1) <= Z.pos m < 2 ^ Z.pos (digits2_pos m).
Proof.
  induction m as [m IH|m IH|]; simpl digits2_pos.
  - rewrite Pos2Z.inj_succ, (Pos2Z.inj_xI m).
    replace (Z.succ (Z.pos (digits2_pos m)) - 1)
      with (Z.succ (Z.pos (digits2_pos m) - 1)) by lia.
    rewrite !Z.pow_succ_r by lia. hide_pows. lia.
  - rewrite Pos2Z.inj_succ, (Pos2Z.inj_xO m).
    replace (Z.succ (Z.pos (digits2_pos m)) - 1)
      with (Z.succ (Z.pos (digits2_pos m) - 1)) by lia.
    rewrite !Z.pow_succ_r by lia. hide_pows. lia.
  - simpl. lia.
Qed.

Lemma digits2_pos_le (m : positive) (k : Z) :
  Z.pos m < 2 ^ k -> Z.pos (digits2_pos m) <= k.
Proof.
  intros Hlt. destruct (digits2_pos_bounds m) as [Hlo _].
  destruct (Z.le_gt_cases (Z.pos (digits2_pos m)) k) as [|Hgt]; [done|].
  assert (2 ^ k <= 2 ^ (Z.pos (digits2_pos m) - 1)).
  { destruct (Z.le_gt_cases 0 k).
    - apply Z.pow_le_mono_r; lia.
    - rewrite (Z.pow_neg_r 2 k) by lia. apply Z.pow_nonneg. lia. }
  lia.
Qed.

Lemma iter_pos_invariant {A} (f : A -> A) (P : Z -> A -> Prop) :
  (forall k a, 0 <= k -> P k a -> P (k + 1) (f a)) ->
  forall p k a, 0 <= k -> P k a -> P (k + Z.pos p) (SpecFloat.iter_pos f p a).
Proof.
  intros Hstep. induction p as [p IH|p IH|]; intros k a Hk Ha; simpl.
  - replace (k + Z.pos p~1) with (k + 1 + Z.pos p + Z.pos p) by lia.
    apply IH; [lia|]. apply IH; [lia|]. by apply Hstep.
  - replace (k + Z.pos p~0) with (k + Z.pos p + Z.pos p) by lia.
    apply IH; [lia|]. by apply IH.
  - by apply Hstep.
Qed.

Lemma shr_1_spec (mrs : shr_record) :
  0 <= shr_m mrs ->
  shr_m (shr_1 mrs) = shr_m mrs / 2 /\ shr_r (shr_1 mrs) = Z.odd (shr_m mrs).
Proof.
  destruct mrs as [m r s]. simpl. intros Hm.
  destruct m as [|[p|p|]|p]; simpl; try lia; split; try reflexivity.
  - rewrite (Pos2Z.inj_xI p). apply (Z.div_unique _ 2 _ 1); lia.
  - rewrite (Pos2Z.inj_xO p). apply (Z.div_unique _ 2 _ 0); lia.
Qed.

Lemma iter_shr_1_spec (M : Z) (p : positive) :
  0 <= M ->
  let mrs := SpecFloat.iter_pos shr_1 p (Build_shr_record M false false) in
  shr_m mrs = M / 2 ^ Z.pos p /\
  (shr_r mrs = true -> 2 ^ (Z.pos p - 1) <= M mod 2 ^ Z.pos p).
Proof.
  intros HM mrs.
  pose (P := fun (k : Z) (a : shr_record) =>
    shr_m a = M / 2 ^ k /\
    (0 < k -> shr_r a = true -> 2 ^ (k - 1) <= M mod 2 ^ k)).
  assert (HP : P (0 + Z.pos p) mrs).
  { apply iter_pos_invariant; [|lia|].
    - intros k a Hk [Hm Hr].
      assert (H2k : 0 < 2 ^ k) by (apply Z.pow_pos_nonneg; lia).
      assert (Hma : 0 <= shr_m a) by (rewrite Hm; apply Z.div_pos; lia).
      destruct (shr_1_spec a Hma) as [Hm' Hr'].
      split.
      + rewrite Hm', Hm, Z.pow_add_r, Z.pow_1_r by lia.
        rewrite Z.div_div by lia. reflexivity.
      + intros _ Hodd. rewrite Hr', Hm in Hodd.
        replace (k + 1 - 1) with k by lia.
        rewrite Z.pow_add_r, Z.pow_1_r by lia.
        rewrite Z.rem_mul_r by lia.
        assert (Hmod : (M / 2 ^ k) mod 2 = 1).
        { rewrite Zmod_odd, Hodd. reflexivity. }
        rewrite Hmod.
        pose proof (Z.mod_pos_bound M (2 ^ k) H2k). lia.
    - split; simpl; [|lia]. rewrite Z.div_1_r. reflexivity. }
  destruct HP as [Hm Hr]. split; [exact Hm|]. intros Hr'. apply Hr; [lia|done].
Qed.

Lemma shiftl_floor_lt (m e n : Z) :
  e <= 0 -> 0 <= m -> m < n * 2 ^ (- e) -> 0 <= Z.shiftl m e < n.
Proof.
  intros He Hm Hlt. rewrite Z.shiftl_div_pow2 by lia.
  assert (0 < 2 ^ (- e)) by (apply Z.pow_pos_nonneg; lia).
  split; [apply Z.div_pos; lia|].
  apply Z.div_lt_upper_bound; lia.
Qed.

Lemma fexp_unfold (e : Z) : fexp prec emax e = Z.max (e - 53) (-1074).
Proof. reflexivity. Qed.

Lemma round_aux_exact (s : bool) (M : positive) (E : Z) :
  fexp prec emax (Z.pos (digits2_pos M) + E) <= E ->
  E <= 971 ->
  binary_round_aux prec emax s (Z.pos M) E loc_Exact = S754_finite s M E.
Proof.
  intros Hfexp HE.
  assert (Hshr : forall mrs,
    shr mrs E (fexp prec emax (Z.pos (digits2_pos M) + E) - E) = (mrs, E)).
  { intros mrs. unfold shr.
    destruct (fexp prec emax (Z.pos (digits2_pos M) + E) - E) eqn:Hp;
      try reflexivity; lia. }
  unfold binary_round_aux, shr_fexp. simpl Zdigits2. simpl shr_record_of_loc.
  rewrite Hshr. simpl. rewrite Hshr. simpl.
  destruct (Z.leb_spec E (emax - prec)) as [|Hgt]; [reflexivity|].
  unfold emax, prec in Hgt. lia.
Qed.

Lemma iter_xO_spec (k m : positive) :
  Z.pos (Pos.iter xO m k) = Z.pos m * 2 ^ Z.pos k /\
  Z.pos (digits2_pos (Pos.iter xO m k)) = Z.pos (digits2_pos m) + Z.pos k.
Proof.
  induction k as [|k [IHv IHd]] using Pos.peano_ind.
  - simpl. split; lia.
  - rewrite Pos.iter_succ. simpl digits2_pos.
    rewrite (Pos2Z.inj_xO (Pos.iter xO m k)), !Pos2Z.inj_succ, IHv, IHd.
    rewrite Z.pow_succ_r by lia. split; lia.
Qed.

Lemma of_Z_pos (n : Z) :
  0 < n < 2 ^ 53 ->
  exists my ey, of_Z n = S754_finite false my ey /\ ey <= 0 /\
                Z.pos my = n * 2 ^ (- ey).
Proof.
  intros [Hpos Hlt]. destruct n as [|m|m]; try lia.
  pose proof (digits2_pos_le m 53 Hlt) as Hd.
  unfold of_Z, binary_normalize, binary_round.
  rewrite fexp_unfold, Z.add_0_r.
  rewrite Z.max_l by lia.
  unfold shl_align.
  destruct (Z.pos (digits2_pos m) - 53 - 0) as [|k|k] eqn:Hk; try lia.
  - exists m, 0. split; [|split; [lia|simpl; lia]].
    apply round_aux_exact; [|lia]. rewrite fexp_unfold. lia.
  - destruct (iter_xO_spec k m) as [Hv Hdig].
    exists (Pos.iter xO m k), (Z.pos (digits2_pos m) - 53).
    split; [|split; [lia|]].
    + apply round_aux_exact; [|lia]. rewrite fexp_unfold, Hdig. lia.
    + rewrite Hv. f_equal. f_equal. lia.
Qed.

Lemma in_unit_finite (s : bool) (m : positive) (e : Z) :
  in_unit (S754_finite s m e) = true ->
  s = false /\ Z.pos m < 2 ^ 53 /\ e <= -53.
Proof.
  unfold in_unit. rewrite !andb_true_iff. intros [[Hvalid Hle] Hlt].
  destruct s; [discriminate Hle|]. split; [reflexivity|].
  simpl in Hvalid. unfold bounded, canonical_mantissa in Hvalid.
  apply andb_true_iff in Hvalid as [Hcan _]. apply Z.eqb_eq in Hcan.
  rewrite fexp_unfold in Hcan.
  pose proof (digits2_pos_bounds m) as [Hlo Hhi].
  assert (Hd : Z.pos (digits2_pos m) <= 53) by lia.
  split.
  { eapply Z.lt_le_trans; [exact Hhi|]. apply Z.pow_le_mono_r; lia. }
  change (of_Z 1) with (S754_finite false 4503599627370496 (-52)) in Hlt.
  unfold SFltb, SFcompare in Hlt.
  destruct (Z.compare_spec e (-52)) as [Heq|Hlt'|Hgt]; try discriminate; [|lia].
  subst e. exfalso.
  assert (Hd53 : Z.pos (digits2_pos m) = 53) by lia.
  rewrite Hd53 in Hlo. change (2 ^ (53 - 1)) with 4503599627370496 in Hlo.
  destruct (Pos.compare_cont Eq m 4503599627370496) eqn:Hc; try discriminate.
  assert (Hc' : (m < 4503599627370496)%positive) by exact Hc.
  apply Pos2Z.pos_lt_pos in Hc'. clear - Hlo Hc'. lia.
Qed.

Lemma round_nearest_even_spec (mrs : shr_record) :
  let m1 := round_nearest_even (shr_m mrs) (loc_of_shr_record mrs) in
  shr_m mrs <= m1 <= shr_m mrs + 1 /\
  (m1 = shr_m mrs + 1 -> shr_r mrs = true).
Proof.
  destruct mrs as [m [] []]; simpl; try destruct (Z.even m); split; lia || auto.
Qed.

Lemma shr_fexp_exact_le (m1 t : Z) :
  0 <= m1 ->
  let '(mrs, e) := shr_fexp prec emax m1 t loc_Exact in
  0 <= shr_m mrs /\ t <= e /\ shr_m mrs * 2 ^ (e - t) <= m1 /\
  e = Z.max t (fexp prec emax (Zdigits2 m1 + t)).
Proof.
  intros Hm1. unfold shr_fexp, shr. simpl shr_record_of_loc.
  destruct (fexp prec emax (Zdigits2 m1 + t) - t) as [|p|p] eqn:Hp.
  - simpl. rewrite Z.sub_diag. simpl. lia.
  - destruct (iter_shr_1_spec m1 p Hm1) as [Hq _].
    rewrite Hq.
    assert (H2p : 0 < 2 ^ Z.pos p) by (apply Z.pow_pos_nonneg; lia).
    replace (t + Z.pos p - t) with (Z.pos p) by lia.
    split; [apply Z.div_pos; lia|]. split; [lia|]. split; [|lia].
    rewrite Z.mul_comm. apply Z.mul_div_le. lia.
  - simpl. rewrite Z.sub_diag. simpl. lia.
Qed.

Lemma round_aux_below (M : positive) (E n : Z) :
  E <= -53 -> 0 < n < 2 ^ 53 ->
  Z.pos M + n * 2 ^ (- E - 53) <= n * 2 ^ (- E) ->
  exists k,
    Math_floor (binary_round_aux prec emax false (Z.pos M) E loc_Exact) = Int k
    /\ 0 <= k < n.
Proof.
  intros HE [Hn0 Hn53] Hgap.
  pose proof (digits2_pos_bounds M) as [Hdlo Hdhi].
  set (d := Z.pos (digits2_pos M)) in *.
  assert (HG : 0 < 2 ^ (- E - 53)) by (apply Z.pow_pos_nonneg; lia).
  assert (HNG : 2 ^ (- E) = 2 ^ (- E - 53) * 2 ^ 53).
  { rewrite <- Z.pow_add_r by lia. f_equal. lia. }
  assert (HMN : Z.pos M < n * 2 ^ (- E)) by nia.
  assert (HdE : d + E <= 53).
  { assert (Z.pos M < 2 ^ (53 - E)).
    { replace (53 - E) with (53 + - E) by lia. rewrite Z.pow_add_r by lia.
      assert (0 < 2 ^ (- E)) by (apply Z.pow_pos_nonneg; lia). nia. }
    pose proof (digits2_pos_le M (53 - E)). fold d in H0. lia. }
  set (t := fexp prec emax (d + E)).
  assert (Ht : t = Z.max (d + E - 53) (-1074)) by reflexivity.
  destruct (Z.le_gt_cases t E) as [Hexact|Hshift].
  - rewrite round_aux_exact by (fold d t; lia).
    exists (Z.shiftl (Z.pos M) E). split; [reflexivity|].
    apply shiftl_floor_lt; lia.
  - destruct (t - E) as [|p|p] eqn:Hp; try lia.
    assert (Hfirst : shr_fexp prec emax (Z.pos M) E loc_Exact =
      (SpecFloat.iter_pos shr_1 p (Build_shr_record (Z.pos M) false false),
       E + Z.pos p)).
    { unfold shr_fexp, shr. simpl Zdigits2. simpl shr_record_of_loc.
      fold d. fold t. rewrite Hp. reflexivity. }
    unfold binary_round_aux. rewrite Hfirst. cbv beta iota.
    destruct (iter_shr_1_spec (Z.pos M) p ltac:(lia)) as [Hq Hr].
    set (mrs := SpecFloat.iter_pos shr_1 p _) in *.
    destruct (round_nearest_even_spec mrs) as [Hm1 Hup].
    set (m1 := round_nearest_even (shr_m mrs) (loc_of_shr_record mrs)) in *.
    assert (H2p : 0 < 2 ^ Z.pos p) by (apply Z.pow_pos_nonneg; lia).
    pose proof (Z.div_mod (Z.pos M) (2 ^ Z.pos p) ltac:(lia)) as Hdm.
    pose proof (Z.mod_pos_bound (Z.pos M) (2 ^ Z.pos p) H2p) as Hmod.
    rewrite <- Hq in Hdm.
    assert (Hq0 : 0 <= shr_m mrs) by (rewrite Hq; apply Z.div_pos; lia).
    assert (Hkey : m1 * 2 ^ Z.pos p < n * 2 ^ (- E)).
    { destruct (Z.eq_dec m1 (shr_m mrs + 1)) as [Hround|Hkeep]; [|nia].
      specialize (Hr (Hup Hround)).
      destruct (Z.le_gt_cases (-1074) (d + E - 53)) as [Hnormal|Hsub].
      + (* normal range: half an ulp stays below the gap *)
        assert (Hp53 : Z.pos p = d - 53) by lia.
        assert (H2p' : 2 ^ Z.pos p = 2 * 2 ^ (Z.pos p - 1)).
        { rewrite <- Z.pow_succ_r by lia. f_equal. lia. }
        assert (Hd1 : 2 ^ (d - 1) = 2 ^ (Z.pos p - 1) * 2 ^ 53).
        { rewrite <- Z.pow_add_r by lia. f_equal. lia. }
        assert (Hhalf : 2 ^ (Z.pos p - 1) < n * 2 ^ (- E - 53)).
        { rewrite HNG in HMN. rewrite Hd1 in Hdlo.
          assert (0 < 2 ^ 53) by lia.
          set (a := 2 ^ (Z.pos p - 1)) in *. set (g := 2 ^ (- E - 53)) in *.
          clearbody a g. nia. }
        rewrite Hround.
        set (a := 2 ^ (Z.pos p - 1)) in *. set (g := 2 ^ (- E - 53)) in *.
        set (b := 2 ^ Z.pos p) in *. set (N := 2 ^ (- E)) in *.
        clearbody a g b N. nia.
      + (* subnormal range: the result is below 2^-1022 *)
        assert (Hp74 : Z.pos p = -1074 - E) by lia.
        assert (HM52 : Z.pos M < 2 ^ Z.pos p * 2 ^ 52).
        { rewrite <- Z.pow_add_r by lia.
          eapply Z.lt_le_trans; [exact Hdhi|]. apply Z.pow_le_mono_r; lia. }
        assert (Hq52 : shr_m mrs + 1 <= 2 ^ 52).
        { assert (shr_m mrs < 2 ^ 52); [|lia].
          set (b := 2 ^ Z.pos p) in *. clearbody b. nia. }
        assert (Hbig : 2 ^ 52 * 2 ^ Z.pos p < 2 ^ (- E)).
        { rewrite <- Z.pow_add_r by lia. apply Z.pow_lt_mono_r; lia. }
        rewrite Hround.
        set (b := 2 ^ Z.pos p) in *. set (N := 2 ^ (- E)) in *.
        clearbody b N. nia. }
    assert (Hm1pos : 0 <= m1) by lia.
    pose proof (shr_fexp_exact_le m1 (E + Z.pos p) Hm1pos) as Hsecond.
    destruct (shr_fexp prec emax m1 (E + Z.pos p) loc_Exact) as [mrs2 e2].
    destruct Hsecond as (Hm2 & Hte & Hle & He2).
    assert (He2' : e2 <= 0).
    { rewrite He2. apply Z.max_lub; [lia|]. rewrite fexp_unfold.
      apply Z.max_lub; [|lia].
      destruct m1 as [|m1p|m1p]; [simpl; lia| |lia].
      simpl Zdigits2.
      assert (Z.pos m1p < 2 ^ (53 - (E + Z.pos p))).
      { assert (Hsplit : 2 ^ (53 - E) = 2 ^ (53 - (E + Z.pos p)) * 2 ^ Z.pos p).
        { rewrite <- Z.pow_add_r by lia. f_equal. lia. }
        assert (HN53 : n * 2 ^ (- E) < 2 ^ (53 - E)).
        { replace (53 - E) with (53 + - E) by lia. rewrite Z.pow_add_r by lia.
          assert (0 < 2 ^ (- E)) by (apply Z.pow_pos_nonneg; lia). nia. }
        rewrite Hsplit in HN53.
        set (b := 2 ^ Z.pos p) in *. set (c := 2 ^ (53 - (E + Z.pos p))) in *.
        clearbody b c. nia. }
      pose proof (digits2_pos_le m1p _ H). lia. }
    destruct (shr_m mrs2) as [|m2|m2] eqn:Hm2e; [| |lia].
    + exists 0. split; [reflexivity|lia].
    + destruct (Z.leb_spec e2 (emax - prec)) as [_|Hover];
        [|unfold emax, prec in Hover; lia].
      exists (Z.shiftl (Z.pos m2) e2). split; [reflexivity|].
      apply shiftl_floor_lt; [lia|lia|].
      assert (Hsplit : 2 ^ (- E)
                       = 2 ^ (- e2) * (2 ^ (e2 - (E + Z.pos p)) * 2 ^ Z.pos p)).
      { rewrite <- !Z.pow_add_r by lia. f_equal. lia. }
      assert (0 < 2 ^ (e2 - (E + Z.pos p))) by (apply Z.pow_pos_nonneg; lia).
      rewrite Hsplit in Hkey.
      set (b := 2 ^ Z.pos p) in *. set (c := 2 ^ (e2 - (E + Z.pos p))) in *.
      set (x := 2 ^ (- e2)) in *. clearbody b c x.
      assert (Z.pos m2 * (c * b) < n * x * (c * b)) by nia.
      assert (0 < c * b) by nia.
      apply Z.mul_lt_mono_pos_r with (p := c * b); lia.
Qed.

Lemma floor_mul_bound (v : number) (n : Z) :
  in_unit v = true -> 0 < n < 2 ^ 53 ->
  exists k, Math_floor (mul v (of_Z n)) = Int k /\ 0 <= k < n.
Proof.
  intros Hv Hn.
  destruct (of_Z_pos n Hn) as (my & ey & Hof & Hey & Hmy). rewrite Hof.
  destruct v as [s|[]| |s mv ev].
  - exists 0. split; [reflexivity|lia].
  - vm_compute in Hv. discriminate Hv.
  - vm_compute in Hv. discriminate Hv.
  - vm_compute in Hv. discriminate Hv.
  - destruct (in_unit_finite _ _ _ Hv) as (-> & Hmv & Hev).
    unfold mul, SFmul. simpl xorb.
    apply round_aux_below; [lia|exact Hn|].
    rewrite Pos2Z.inj_mul, Hmy.
    assert (HA : 2 ^ (- (ev + ey)) = 2 ^ (- ey) * (2 ^ (- ev - 53) * 2 ^ 53)).
    { rewrite <- !Z.pow_add_r by lia. f_equal. lia. }
    assert (HB : 2 ^ (- (ev + ey) - 53) = 2 ^ (- ey) * 2 ^ (- ev - 53)).
    { rewrite <- !Z.pow_add_r by lia. f_equal. lia. }
    rewrite HA, HB.
    assert (0 < 2 ^ (- ey)) by (apply Z.pow_pos_nonneg; lia).
    assert (0 < 2 ^ (- ev - 53)) by (apply Z.pow_pos_nonneg; lia).
    assert (H53 : 2 ^ 53 = 9007199254740992) by reflexivity.
    rewrite H53 in *.
    set (a := 2 ^ (- ey)) in *. set (b := 2 ^ (- ev - 53)) in *.
    clearbody a b.
    assert (Z.pos mv + b <= b * 9007199254740992) by nia.
    assert (0 < n * a) by nia.
    nia.
Qed.

End NumberFacts.

(** At the largest draw the exact products [100 - 100 * 2^-53] and
    [3 - 3 * 2^-53] are not representable; they round to the number just
    below 100 and just below 3, and the indices are the last ones. *)
Lemma largest_draw_in_bounds :
  Number.Math_floor
    (Number.mul (unit_value TestDouble.largest) (Number.of_Z 100))
  = Number.Int 99 /\
  Number.Math_floor
    (Number.mul (unit_value TestDouble.largest) (Number.of_Z 3))
  = Number.Int 2.
Proof. split; vm_compute; reflexivity. Qed.

(** ** The sampler *)
Section SamplerFacts.
Context `{Prng, Names, Locale}.

Lemma scaled_bound (v : unit_number) (n : Z) :
  0 < n < 2 ^ 53 ->
  exists k, RandomName.scaled v n = Number.Int k /\ 0 <= k < n.
Proof. intros Hn. apply floor_mul_bound; [apply unit_value_ok|exact Hn]. Qed.

Lemma array_get_in_bounds {T : Type} (arr : list T) (v : unit_number) :
  arr <> [] -> Z.of_nat (length arr) < 2 ^ 32 ->
  exists i x,
    RandomName.scaled v (Z.of_nat (length arr)) = Number.Int (Z.of_nat i) /\
    (i < length arr)%nat /\ arr !! i = Some x /\
    array_get arr (RandomName.scaled v (Z.of_nat (length arr))) = Some x.
Proof.
  intros Hne Hlen.
  assert (Hpos : 0 < Z.of_nat (length arr))
    by (destruct arr; [done|simpl; lia]).
  destruct (scaled_bound v (Z.of_nat (length arr))) as (k & Hk & Hk0 & Hkn).
  { split; [exact Hpos|]. eapply Z.lt_trans; [exact Hlen|]. reflexivity. }
  assert (Hi : (Z.to_nat k < length arr)%nat) by lia.
  destruct (lookup_lt_is_Some_2 arr (Z.to_nat k) Hi) as [x Hx].
  exists (Z.to_nat k), x. rewrite Z2Nat.id by lia.
  split; [exact Hk|]. split; [exact Hi|]. split; [exact Hx|].
  rewrite Hk. unfold array_get.
  destruct (Z.leb_spec 0 k); [exact Hx|lia].
Qed.

Lemma pick_spec {T : Type} (arr : list T) (this : RandomName.t) :
  arr <> [] -> Z.of_nat (length arr) < 2 ^ 32 ->
  exists i x,
    (i < length arr)%nat /\ arr !! i = Some x /\
    RandomName.scaled (prng_call (RandomName.nextRnd this)).1
      (Z.of_nat (length arr)) = Number.Int (Z.of_nat i) /\
    RandomName.pick arr this =
      (Some x,
       RandomName.with_nextRnd this (prng_call (RandomName.nextRnd this)).2).
Proof.
  intros Hne Hlen. unfold RandomName.pick.
  destruct (prng_call (RandomName.nextRnd this)) as [v g]. simpl.
  destruct (array_get_in_bounds arr v Hne Hlen)
    as (i & x & Hi & Hlt & Hx & Hget).
  exists i, x. rewrite Hget. auto.
Qed.

Lemma next_spec (this : RandomName.t) :
  adjectives <> [] -> animals <> [] ->
  Z.of_nat (length adjectives) < 2 ^ 32 ->
  Z.of_nat (length animals) < 2 ^ 32 ->
  let c1 := prng_call (RandomName.nextRnd this) in
  let c2 := prng_call c1.2 in
  let c3 := prng_call c2.2 in
  exists (i j : nat) (a b : string) (k : Z),
    RandomName.scaled c1.1 (Z.of_nat (length adjectives))
      = Number.Int (Z.of_nat i) /\
    adjectives !! i = Some a /\
    RandomName.scaled c2.1 (Z.of_nat (length animals))
      = Number.Int (Z.of_nat j) /\
    animals !! j = Some b /\
    RandomName.scaled c3.1 100 = Number.Int k /\ 0 <= k < 100 /\
    RandomName.next this =
      (Normal
         (let name :=
            capitalized (RandomName.capitalize this) a
            +:+ RandomName.separator this
            +:+ capitalized (RandomName.capitalize this) b in
          if RandomName.addNumbers this
          then name +:+ RandomName.separator this +:+ pretty k
          else name),
       RandomName.with_nextRnd this
         (if RandomName.addNumbers this then c3.2 else c2.2)).
Proof.
  intros Hadj Hani Hladj Hlani c1 c2 c3. unfold RandomName.next.
  destruct (pick_spec adjectives this Hadj Hladj) as (i & a & _ & Ha & Hi & ->).
  fold c1. set (this1 := RandomName.with_nextRnd this c1.2).
  destruct (pick_spec animals this1 Hani Hlani)
    as (j & b & _ & Hb & Hj & Hpick).
  assert (Hcap : forall w,
    RandomName.capitalize_word (RandomName.capitalize this) (Some w)
    = Normal (Some (capitalized (RandomName.capitalize this) w))).
  { intros w. unfold RandomName.capitalize_word, capitalized.
    destruct (RandomName.capitalize this); reflexivity. }
  rewrite Hcap, Hpick, Hcap.
  change (prng_call (RandomName.nextRnd this1)) with c2 in *.
  set (this2 := RandomName.with_nextRnd this1 c2.2).
  change (prng_call (RandomName.nextRnd this2)) with c3.
  destruct (scaled_bound c3.1 100) as (k & Hk & Hk100); [done|].
  exists i, j, a, b, k.
  repeat (split; [assumption|]).
  cbn [String_of]. destruct c3 as [v g] eqn:Hc3. cbn [fst snd] in *.
  destruct (RandomName.addNumbers this) eqn:Hadd.
  - rewrite Hk. subst this2 this1. unfold RandomName.with_nextRnd.
    cbn [RandomName.seed RandomName.separator RandomName.capitalize
         RandomName.addNumbers Number_toString].
    reflexivity.
  - reflexivity.
Qed.
End SamplerFacts.

Lemma append_empty_r (s : string) : s +:+ "" = s.
Proof.
  induction s as [|c s IH]; [reflexivity|].
  change (String c (s +:+ "") = String c s). by rewrite IH.
Qed.

Section ConstructorFacts.
Context `{Prng, Names, Locale}.

Lemma random_seed_normal (random : unit_number) :
  exists k,
    BigInt (Number.Math_floor
              (Number.mul (unit_value random) Number.MAX_SAFE_INTEGER))
    = Normal k /\ 0 <= k < 2 ^ 53 - 1.
Proof.
  destruct (floor_mul_bound (unit_value random) (2 ^ 53 - 1)) as (k & Hk & Hr).
  - apply unit_value_ok.
  - split; reflexivity.
  - exists k. unfold Number.MAX_SAFE_INTEGER. rewrite Hk.
    split; [reflexivity|exact Hr].
Qed.

Lemma constructor_fields (options : RandomNameOptions.t)
    (random : unit_number) :
  exists s,
    RandomName.seed_or_random (RandomNameOptions.seed options) random
      = Normal s /\
    RandomName.constructor options random =
      Normal
        {| RandomName.seed := s;
           RandomName.nextRnd := randomSeeded s;
           RandomName.separator :=
             RandomName.separator_or_space
               (RandomNameOptions.separator options);
           RandomName.capitalize :=
             RandomName.flag_or_false (RandomNameOptions.capitalize options);
           RandomName.addNumbers :=
             RandomName.flag_or_false (RandomNameOptions.addNumbers options) |}.
Proof.
  assert (Hs : exists s,
    RandomName.seed_or_random (RandomNameOptions.seed options) random
    = Normal s).
  { unfold RandomName.seed_or_random.
    destruct (random_seed_normal random) as (k & -> & _).
    destruct (RandomNameOptions.seed options) as [s|]; [|by eexists].
    destruct (s =? 0); by eexists. }
  destruct Hs as [s Hs]. exists s. split; [exact Hs|].
  unfold RandomName.constructor. rewrite Hs. reflexivity.
Qed.

Lemma seeded_constructor (options : RandomNameOptions.t) (s : Z)
    (random1 random2 : unit_number) :
  RandomNameOptions.seed options = Some s -> s <> 0 ->
  RandomName.constructor options random1
  = RandomName.constructor options random2.
Proof.
  intros Hseed Hs. unfold RandomName.constructor, RandomName.seed_or_random.
  rewrite Hseed. destruct (Z.eqb_spec s 0); [contradiction|reflexivity].
Qed.

(** With a seed other than [0n] the sequence of names does not depend on
    [Math.random()]: two samplers built from the same options agree on
    every prefix. *)
Lemma seeded_runs_agree (options : RandomNameOptions.t) (s : Z)
    (random1 random2 : unit_number) (n : nat) :
  RandomNameOptions.seed options = Some s -> s <> 0 ->
  RandomName.run options random1 n = RandomName.run options random2 n.
Proof.
  intros Hseed Hs. unfold RandomName.run.
  rewrite (seeded_constructor options s random1 random2 Hseed Hs). reflexivity.
Qed.

(** The seed [0n] is treated as no seed at all. *)
Lemma seed_zero_as_absent (separator : option string)
    (capitalize addNumbers : option bool) (random : unit_number) :
  RandomName.constructor
    {| RandomNameOptions.seed := Some 0;
       RandomNameOptions.separator := separator;
       RandomNameOptions.capitalize := capitalize;
       RandomNameOptions.addNumbers := addNumbers |} random
  = RandomName.constructor
    {| RandomNameOptions.seed := None;
       RandomNameOptions.separator := separator;
       RandomNameOptions.capitalize := capitalize;
       RandomNameOptions.addNumbers := addNumbers |} random.
Proof. reflexivity. Qed.

Lemma next_without_capitalize (this : RandomName.t) :
  RandomName.capitalize this = false ->
  exists x, (RandomName.next this).1 = Normal x.
Proof.
  intros Hcap. unfold RandomName.next, RandomName.pick.
  destruct (prng_call (RandomName.nextRnd this)) as [v1 g1].
  rewrite Hcap.
  cbn [RandomName.capitalize_word RandomName.nextRnd
       RandomName.with_nextRnd].
  destruct (prng_call g1) as [v2 g2].
  cbn [RandomName.nextRnd RandomName.with_nextRnd RandomName.addNumbers].
  destruct (RandomName.addNumbers this).
  - destruct (prng_call g2) as [v3 g3]. by eexists.
  - by eexists.
Qed.
End ConstructorFacts.

(** ** Successive calls *)

Section CallFacts.
Context `{Prng, Names, Locale}.

(** A sampler keeps its configuration over the calls of [next]. *)
Lemma next_keeps_configuration (this : RandomName.t) :
  RandomName.separator (RandomName.next this).2 = RandomName.separator this /\
  RandomName.capitalize (RandomName.next this).2 = RandomName.capitalize this /\
  RandomName.addNumbers (RandomName.next this).2 = RandomName.addNumbers this.
Proof.
  unfold RandomName.next, RandomName.pick.
  destruct (prng_call (RandomName.nextRnd this)) as [v1 g1].
  destruct (RandomName.capitalize_word _ _) as [a|e]; [|by cbn].
  cbn [RandomName.nextRnd RandomName.with_nextRnd].
  destruct (prng_call g1) as [v2 g2].
  destruct (RandomName.capitalize_word _ _) as [b|e]; [|by cbn].
  destruct (RandomName.addNumbers this) eqn:Hadd.
  - cbn [RandomName.nextRnd RandomName.with_nextRnd].
    destruct (prng_call g2) as [v3 g3]. by cbn.
  - by cbn.
Qed.

Lemma after_keeps_configuration (n : nat) :
  forall this,
    RandomName.separator (RandomName.after n this)
    = RandomName.separator this /\
    RandomName.capitalize (RandomName.after n this)
    = RandomName.capitalize this /\
    RandomName.addNumbers (RandomName.after n this)
    = RandomName.addNumbers this.
Proof.
  induction n as [|n IH]; intros this; [done|].
  cbn [RandomName.after].
  destruct (IH (RandomName.next this).2) as (-> & -> & ->).
  apply next_keeps_configuration.
Qed.

(** The sampler a constructor call returns has the configuration read off
    the options, and keeps it however often [next] has been called. *)
Lemma after_constructor (options : RandomNameOptions.t)
    (random : unit_number) (this : RandomName.t) (n : nat) :
  RandomName.constructor options random = Normal this ->
  RandomName.separator (RandomName.after n this)
  = RandomName.separator_or_space (RandomNameOptions.separator options) /\
  RandomName.capitalize (RandomName.after n this)
  = RandomName.flag_or_false (RandomNameOptions.capitalize options) /\
  RandomName.addNumbers (RandomName.after n this)
  = RandomName.flag_or_false (RandomNameOptions.addNumbers options).
Proof.
  intros Hnew.
  destruct (constructor_fields options random) as (s & _ & Hfields).
  rewrite Hfields in Hnew. injection Hnew as <-.
  destruct (after_keeps_configuration n
    {| RandomName.seed := s;
       RandomName.nextRnd := randomSeeded s;
       RandomName.separator :=
         RandomName.separator_or_space (RandomNameOptions.separator options);
       RandomName.capitalize :=
         RandomName.flag_or_false (RandomNameOptions.capitalize options);
       RandomName.addNumbers :=
         RandomName.flag_or_false (RandomNameOptions.addNumbers options) |})
    as (-> & -> & ->).
  done.
Qed.


(** Every string of a run is what [next] returns after some number of
    calls. *)
Lemma sequence_elem (n : nat) :
  forall this name,
    name ∈ RandomName.sequence n this ->
    exists i, (i < n)%nat /\
      name = (RandomName.next (RandomName.after i this)).1.
Proof.
  induction n as [|n IH]; intros this name.
  - cbn [RandomName.sequence]. by intros ?%elem_of_nil.
  - change (RandomName.sequence (S n) this)
      with (let '(r, this') := RandomName.next this in
            r :: RandomName.sequence n this').
    destruct (RandomName.next this) as [r this'] eqn:Hnext.
    intros [->|Hin]%elem_of_cons.
    + exists 0%nat. cbn [RandomName.after]. rewrite Hnext. split; [lia|done].
    + destruct (IH this' name Hin) as (i & Hi & ->).
      exists (S i). cbn [RandomName.after]. rewrite Hnext.
      split; [lia|done].
Qed.
End CallFacts.

(** ** The resolver *)

Lemma directory_spec (root : string) (taken : gset string) (x : string) :
  directory root taken (root +:+ "/" +:+ x) = true <-> x ∈ taken.
Proof.
  unfold directory. rewrite bool_decide_eq_true, elem_of_map. split.
  - intros (y & Heq & Hy).
    apply (inj (String.app root)) in Heq.
    apply (inj (String.app "/")) in Heq. by subst.
  - intros Hx. by exists x.
Qed.

Lemma directory_empty (root path : string) : directory root ∅ path = false.
Proof. unfold directory. rewrite set_map_empty. reflexivity. Qed.

Section ResolverFacts.
Context `{Prng, Names, Locale}.
Variable existsSync : string -> bool.

Lemma copy_loop_free (options : Options.t) (base : string) (fuel : nat) :
  forall (x : string) (i : N) (r : string),
    result (Main.copy_loop existsSync fuel options base x i)
      = Some (Normal r) ->
    existsSync (path_of options r) = false.
Proof.
  induction fuel as [|fuel IH]; intros x i r; simpl; [discriminate|].
  destruct (existsSync (Options.root options +:+ "/" +:+ x)) eqn:Hx; simpl.
  - apply IH.
  - intros [= <-]. exact Hx.
Qed.

Lemma random_loop_free (options : Options.t) (fuel : nat) :
  forall (randomName : RandomName.t) (r : string),
    result (Main.random_loop existsSync fuel options randomName)
      = Some (Normal r) ->
    existsSync (path_of options r) = false.
Proof.
  induction fuel as [|fuel IH]; intros randomName r; simpl; [discriminate|].
  destruct (RandomName.next randomName) as [[x|e] randomName']; simpl;
    [|discriminate].
  destruct (existsSync (Options.root options +:+ "/" +:+ x)) eqn:Hx; simpl.
  - apply IH.
  - intros [= <-]. exact Hx.
Qed.

Lemma copy_loop_first_free (options : Options.t) (base : string) (k : nat) :
  forall (j fuel : nat),
    (k < fuel)%nat ->
    (forall m, (j <= m < j + k)%nat ->
       existsSync (path_of options (copy_candidate base m)) = true) ->
    existsSync (path_of options (copy_candidate base (j + k))) = false ->
    Main.copy_loop existsSync fuel options base
      (copy_candidate base j) (N.of_nat (S j))
    = {| result := Some (Normal (copy_candidate base (j + k)));
         probes := path_of options ∘ copy_candidate base <$> seq j (S k) |}.
Proof.
  induction k as [|k IH]; intros j fuel Hfuel Htaken Hfree;
    (destruct fuel as [|fuel]; [lia|]); simpl Main.copy_loop.
  - rewrite Nat.add_0_r in Hfree. unfold path_of in Hfree. rewrite Hfree.
    rewrite Nat.add_0_r. reflexivity.
  - pose proof (Htaken j ltac:(lia)) as Hj. unfold path_of in Hj. rewrite Hj.
    replace (N.of_nat (S j) + 1)%N with (N.of_nat (S (S j))) by lia.
    change (base +:+ "-copy-" +:+ pretty (N.of_nat (S j)))
      with (copy_candidate base (S j)).
    rewrite (IH (S j) fuel).
    + unfold probed. cbn [result probes].
      replace (S j + k)%nat with (j + S k)%nat by lia. reflexivity.
    + lia.
    + intros m Hm. apply Htaken. lia.
    + replace (S j + k)%nat with (j + S k)%nat by lia. exact Hfree.
Qed.
End ResolverFacts.

Lemma copy_candidate_inj (base : string) (j k : nat) :
  copy_candidate base j = copy_candidate base k -> j = k.
Proof.
  unfold copy_candidate. destruct j as [|j], k as [|k]; intros Heq.
  - reflexivity.
  - apply (inj (String.app base)) in Heq. discriminate Heq.
  - apply (inj (String.app base)) in Heq. discriminate Heq.
  - apply (inj (String.app base)) in Heq.
    apply (inj (String.app "-copy-")) in Heq.
    apply (inj pretty) in Heq. lia.
Qed.

(** Among the first [size taken + 1] candidates one is not taken; the
    least such is where the copy loop stops. *)
Lemma free_candidate_exists (base : string) (taken : gset string) :
  exists k, (k <= size taken)%nat /\
    (copy_candidate base k ∉ taken) /\
    forall j, (j < k)%nat -> copy_candidate base j ∈ taken.
Proof.
  assert (Hsome : exists k,
    (k <= size taken)%nat /\ copy_candidate base k ∉ taken).
  { destruct (decide (Forall (fun k => copy_candidate base k ∈ taken)
                        (seq 0 (S (size taken))))) as [Hall|Hnot].
    - exfalso.
      assert (Hsub :
        (list_to_set (copy_candidate base <$> seq 0 (S (size taken)))
         : gset string) ⊆ taken).
      { intros x Hx. apply elem_of_list_to_set, list_elem_of_fmap in Hx
          as (k & -> & Hk).
        rewrite Forall_forall in Hall. by apply Hall. }
      apply subseteq_size in Hsub.
      rewrite size_list_to_set, length_fmap, length_seq in Hsub; [lia|].
      apply NoDup_fmap_2_strong; [|apply NoDup_seq].
      intros j k _ _. apply copy_candidate_inj.
    - apply not_Forall_Exists in Hnot; [|intros k; apply _].
      apply Exists_exists in Hnot as (k & Hk & Hfree).
      apply elem_of_seq in Hk. exists k. split; [lia|exact Hfree]. }
  destruct Hsome as (k0 & Hk0 & Hfree0).
  revert Hk0 Hfree0.
  induction k0 as [k0 IH] using lt_wf_ind. intros Hk0 Hfree0.
  destruct (decide (Forall (fun j => copy_candidate base j ∈ taken)
                      (seq 0 k0))) as [Hall|Hnot].
  - exists k0. split; [exact Hk0|]. split; [exact Hfree0|].
    intros j Hj. rewrite Forall_forall in Hall. apply Hall, elem_of_seq. lia.
  - apply not_Forall_Exists in Hnot; [|intros k; apply _].
    apply Exists_exists in Hnot as (j & Hj & Hfree).
    apply elem_of_seq in Hj. apply (IH j); [lia|lia|exact Hfree].
Qed.

Section CopyMode.
Context `{Prng, Names, Locale}.
Variable existsSync : string -> bool.

(** A name the copy loop returns is the first candidate that does not
    exist. *)
Lemma copy_loop_returns_first_free (options : Options.t) (base : string)
    (fuel : nat) :
  forall (j : nat) (r : string),
    result (Main.copy_loop existsSync fuel options base
              (copy_candidate base j) (N.of_nat (S j))) = Some (Normal r) ->
    exists k, (k < fuel)%nat /\ r = copy_candidate base (j + k) /\
      (forall m, (j <= m < j + k)%nat ->
         existsSync (path_of options (copy_candidate base m)) = true) /\
      existsSync (path_of options (copy_candidate base (j + k))) = false.
Proof.
  induction fuel as [|fuel IH]; intros j r; cbn [Main.copy_loop];
    [discriminate|].
  destruct (existsSync (Options.root options +:+ "/" +:+ copy_candidate base j))
    eqn:Hj; cbn [result probed].
  - replace (N.of_nat (S j) + 1)%N with (N.of_nat (S (S j))) by lia.
    change (base +:+ "-copy-" +:+ pretty (N.of_nat (S j)))
      with (copy_candidate base (S j)).
    intros Hr. destruct (IH (S j) r Hr) as (k & Hk & -> & Htaken & Hfree).
    exists (S k). split; [lia|].
    replace (j + S k)%nat with (S j + k)%nat by lia.
    split; [reflexivity|]. split; [|exact Hfree].
    intros m Hm. destruct (decide (m = j)) as [->|Hne]; [exact Hj|].
    apply Htaken. lia.
  - intros [= <-]. exists 0%nat. rewrite Nat.add_0_r.
    split; [lia|]. split; [reflexivity|]. split; [intros m Hm; lia|exact Hj].
Qed.
End CopyMode.

(** X7: in copy-suffix mode over a directory with finitely many names taken
    the loop ends: within [size taken + 1] probes it returns the first
    candidate that is not taken. *)
Lemma copy_suffix_returns `{Prng, Names, Locale}
    (taken : gset string)
    (options : Options.t) (base : string) (random : unit_number) :
  Options.supplied (Options.name options) = None ->
  Options.supplied (Options.copy options) = Some base ->
  exists k, (k <= size taken)%nat /\
    (copy_candidate base k ∉ taken) /\
    (forall j, (j < k)%nat -> copy_candidate base j ∈ taken) /\
    forall fuel, (k < fuel)%nat ->
      Main.getProjectName (directory (Options.root options) taken)
        fuel options random
      = {| result := Some (Normal (copy_candidate base k));
           probes := path_of options ∘ copy_candidate base <$> seq 0 (S k) |}.
Proof.
  intros Hname Hcopy.
  destruct (free_candidate_exists base taken) as (k & Hk & Hfree & Htaken).
  exists k. split; [exact Hk|]. split; [exact Hfree|]. split; [exact Htaken|].
  intros fuel Hfuel. unfold Main.getProjectName. rewrite Hname, Hcopy.
  apply (copy_loop_first_free _ options base k 0 fuel Hfuel).
  - intros m Hm. apply directory_spec, Htaken. lia.
  - apply not_true_is_false. intros Hex. apply directory_spec in Hex. done.
Qed.

(** * The claims *)

(** C1 (reproducibility with a seed present) at the seed [0n].  The
    constructor's [options.seed || ...] takes [0n] for an absent seed:
    whatever the generator, options with [seed: 0n] construct the sampler
    that the same options without a seed construct, seeded from
    [Math.random()].  So two samplers built from the same options
    [{seed: 0n, separator: "-", addNumbers: true}] are seeded differently
    and produce different names as soon as [Math.random()] answers
    differently (here 0 and 1/2, over the test double). *)
Theorem seed_zero_not_reproducible :
  (forall (generator : Prng) (separator : option string)
          (capitalize addNumbers : option bool) (random : unit_number),
     RandomName.constructor
       {| RandomNameOptions.seed := Some 0;
          RandomNameOptions.separator := separator;
          RandomNameOptions.capitalize := capitalize;
          RandomNameOptions.addNumbers := addNumbers |} random
     = RandomName.constructor
       {| RandomNameOptions.seed := None;
          RandomNameOptions.separator := separator;
          RandomNameOptions.capitalize := capitalize;
          RandomNameOptions.addNumbers := addNumbers |} random) /\
  let options := TestDouble.seeded 0 (Some "-") false true in
  RandomName.seed <$> TestDouble.constructor options TestDouble.zero
    = Normal 0 /\
  RandomName.seed <$> TestDouble.constructor options TestDouble.half
    = Normal 4503599627370495 /\
  TestDouble.run options TestDouble.zero 2
    = Normal [Normal "brave-otter-50"; Normal "calm-otter-25"] /\
  TestDouble.run options TestDouble.half 2
    = Normal [Normal "calm-otter-25"; Normal "calm-lynx-0"] /\
  TestDouble.run options TestDouble.zero 2
    <> TestDouble.run options TestDouble.half 2.
Proof.
  split; [intros; reflexivity|].
  repeat (split; [vm_compute; reflexivity|]).
  vm_compute. discriminate.
Qed.

(** C2: in copy-suffix mode (no name, copy base [base]) the resolver hands
    [existsSync] the candidates [base-copy], [base-copy-1], [base-copy-2],
    ... in that order and returns the first one that does not exist: if the
    candidates before the [k]-th exist and the [k]-th does not, the run
    probes exactly the candidates 0..k and returns the [k]-th.  The result
    is a function of the existence predicate. *)
Theorem copy_suffix_first_free `{Prng, Names, Locale}
    (existsSync : string -> bool)
    (options : Options.t) (base : string) (random : unit_number)
    (fuel k : nat) :
  Options.supplied (Options.name options) = None ->
  Options.supplied (Options.copy options) = Some base ->
  (forall j, (j < k)%nat ->
     existsSync (path_of options (copy_candidate base j)) = true) ->
  existsSync (path_of options (copy_candidate base k)) = false ->
  (k < fuel)%nat ->
  Main.getProjectName existsSync fuel options random
  = {| result := Some (Normal (copy_candidate base k));
       probes := path_of options ∘ copy_candidate base <$> seq 0 (S k) |}.
Proof.
  intros Hname Hcopy Htaken Hfree Hfuel. unfold Main.getProjectName.
  rewrite Hname, Hcopy.
  apply (copy_loop_first_free existsSync options base k 0 fuel Hfuel).
  - intros m Hm. apply Htaken. lia.
  - exact Hfree.
Qed.

(** Base [foo] under [/box] with exactly [foo-copy] and [foo-copy-1] taken:
    three probes, and [foo-copy-2] is returned. *)
Lemma copy_suffix_first_free_witness :
  let options := TestDouble.options None (Some "foo") in
  let existsSync := directory "/box" {["foo-copy"; "foo-copy-1"]} in
  Options.supplied (Options.name options) = None /\
  Options.supplied (Options.copy options) = Some "foo" /\
  (forall j, (j < 2)%nat ->
     existsSync (path_of options (copy_candidate "foo" j)) = true) /\
  existsSync (path_of options (copy_candidate "foo" 2)) = false /\
  (2 < 5)%nat /\
  TestDouble.getProjectName existsSync 5 options TestDouble.zero
  = {| result := Some (Normal "foo-copy-2");
       probes := ["/box/foo-copy"; "/box/foo-copy-1"; "/box/foo-copy-2"] |}.
Proof.
  intros options existsSync.
  assert (Htaken : forall j, (j < 2)%nat ->
    existsSync (path_of options (copy_candidate "foo" j)) = true).
  { intros [|[|j]] Hj; [vm_compute; reflexivity..|lia]. }
  assert (Hfree : existsSync (path_of options (copy_candidate "foo" 2)) = false)
    by (vm_compute; reflexivity).
  assert (Hfuel : (2 < 5)%nat) by lia.
  repeat (split; [first [reflexivity|assumption]|]).
  exact (@copy_suffix_first_free TestDouble.prng TestDouble.names
           TestDouble.locale existsSync options "foo" TestDouble.zero 5 2
           eq_refl eq_refl Htaken Hfree Hfuel).
Defined.

(** C3: with the names of [taken] existing under the root, a name returned
    in fresh-name or copy-suffix mode is not in [taken]; and with nothing
    taken the resolver stops at its first probe, returning the first
    candidate: [base-copy] in copy-suffix mode, the first name the sampler
    draws in fresh-name mode. *)
Theorem resolver_avoids_taken `{Prng, Names, Locale}
    (taken : gset string) (options : Options.t)
    (random : unit_number) (fuel : nat) :
  Options.supplied (Options.name options) = None ->
  (forall x,
     result (Main.getProjectName (directory (Options.root options) taken)
               fuel options random) = Some (Normal x) ->
     x ∉ taken) /\
  (forall base,
     Options.supplied (Options.copy options) = Some base ->
     Main.getProjectName (directory (Options.root options) ∅)
       (S fuel) options random
     = {| result := Some (Normal (base +:+ "-copy"));
          probes := [path_of options (base +:+ "-copy")] |}) /\
  (Options.supplied (Options.copy options) = None ->
   exists randomName x,
     RandomName.constructor
       {| RandomNameOptions.seed := None;
          RandomNameOptions.separator := Some "-";
          RandomNameOptions.capitalize := None;
          RandomNameOptions.addNumbers := Some true |} random
     = Normal randomName /\
     (RandomName.next randomName).1 = Normal x /\
     Main.getProjectName (directory (Options.root options) ∅)
       (S fuel) options random
     = {| result := Some (Normal x); probes := [path_of options x] |}).
Proof.
  intros Hname. split; [|split].
  - intros x Hx Htaken.
    apply (directory_spec (Options.root options)) in Htaken.
    unfold Main.getProjectName in Hx. rewrite Hname in Hx.
    destruct (Options.supplied (Options.copy options)) as [base|].
    + apply copy_loop_free in Hx. unfold path_of in Hx. congruence.
    + destruct (RandomName.constructor _ random) as [randomName|e];
        [|discriminate].
      apply random_loop_free in Hx. unfold path_of in Hx. congruence.
  - intros base Hcopy. unfold Main.getProjectName. rewrite Hname, Hcopy.
    simpl Main.copy_loop. rewrite directory_empty. reflexivity.
  - intros Hcopy. unfold Main.getProjectName. rewrite Hname, Hcopy.
    destruct (constructor_fields
                {| RandomNameOptions.seed := None;
                   RandomNameOptions.separator := Some "-";
                   RandomNameOptions.capitalize := None;
                   RandomNameOptions.addNumbers := Some true |} random)
      as (s & _ & Hnew).
    rewrite Hnew. eexists. 
    destruct (next_without_capitalize
                {| RandomName.seed := s;
                   RandomName.nextRnd := randomSeeded s;
                   RandomName.separator := "-";
                   RandomName.capitalize := false;
                   RandomName.addNumbers := true |} eq_refl) as [x Hx].
    exists x. split; [reflexivity|]. split; [exact Hx|].
    simpl Main.random_loop.
    change (RandomName.separator_or_space (Some "-")) with "-".
    change (RandomName.flag_or_false None) with false.
    change (RandomName.flag_or_false (Some true)) with true.
    destruct (RandomName.next _) as [r randomName']. simpl in Hx. subst r.
    rewrite directory_empty. reflexivity.
Qed.

(** With [foo-copy] taken the copy of [foo] is named [foo-copy-1], which is
    not taken; with nothing taken it is [foo-copy], after one probe. *)
Lemma resolver_avoids_taken_witness :
  let options := TestDouble.options None (Some "foo") in
  let taken : gset string := {["foo-copy"]} in
  Options.supplied (Options.name options) = None /\
  result (TestDouble.getProjectName (directory "/box" taken) 3 options
            TestDouble.zero) = Some (Normal "foo-copy-1") /\
  ("foo-copy-1" ∉ taken) /\
  TestDouble.getProjectName (directory "/box" ∅) 3 options TestDouble.zero
  = {| result := Some (Normal "foo-copy"); probes := ["/box/foo-copy"] |}.
Proof.
  intros options taken.
  pose proof (@resolver_avoids_taken TestDouble.prng TestDouble.names
                TestDouble.locale taken options TestDouble.zero 3 eq_refl)
    as [Hfree _].
  pose proof (@resolver_avoids_taken TestDouble.prng TestDouble.names
                TestDouble.locale taken options TestDouble.zero 2 eq_refl)
    as (_ & Hfirst & _).
  assert (Hrun : result (TestDouble.getProjectName (directory "/box" taken) 3
                           options TestDouble.zero)
                 = Some (Normal "foo-copy-1")) by (vm_compute; reflexivity).
  split; [reflexivity|]. split; [exact Hrun|].
  split; [exact (Hfree "foo-copy-1" Hrun)|].
  exact (Hfirst "foo" eq_refl).
Defined.




(** C5: in every name a constructed sampler returns, the first and every
    later one, the two word segments are the drawn adjective and animal
    with, when [capitalize] is true, the first character replaced by its
    [toUpperCase] and every later character as in the vocabulary; without
    [capitalize] (false or omitted) both words are exactly as in the
    vocabulary.  [suffix] is empty or the separator and the number. *)
Theorem capitalize_first_character_only `{Prng, Names, Locale}
    (options : RandomNameOptions.t)
    (random : unit_number) (this : RandomName.t)
    (n : nat) (name : completion string) :
  RandomName.constructor options random = Normal this ->
  adjectives <> [] -> animals <> [] ->
  Z.of_nat (length adjectives) < 2 ^ 32 ->
  Z.of_nat (length animals) < 2 ^ 32 ->
  name ∈ RandomName.sequence n this ->
  exists (a b word1 word2 suffix : string),
    a ∈ adjectives /\ b ∈ animals /\
    name =
      Normal ((word1 +:+ RandomName.separator this +:+ word2) +:+ suffix) /\
    (RandomNameOptions.capitalize options = Some true ->
     word1 = toUpperCase (charAt0 a) +:+ slice1 a /\
     word2 = toUpperCase (charAt0 b) +:+ slice1 b /\
     (forall c rest, a = String c rest ->
        word1 = toUpperCase (String c EmptyString) +:+ rest) /\
     (forall c rest, b = String c rest ->
        word2 = toUpperCase (String c EmptyString) +:+ rest)) /\
    (RandomNameOptions.capitalize options = Some false \/
     RandomNameOptions.capitalize options = None ->
     word1 = a /\ word2 = b).
Proof.
  intros Hnew Hadj Hani Hladj Hlani Hin.
  destruct (sequence_elem n this name Hin) as (i & _ & ->).
  destruct (after_constructor options random this i Hnew)
    as (Hsep & Hflag & _).
  destruct (after_constructor options random this 0 Hnew) as (Hsep0 & _ & _).
  cbn [RandomName.after] in Hsep0.
  destruct (next_spec (RandomName.after i this) Hadj Hani Hladj Hlani)
    as (j1 & j2 & a & b & k & _ & Ha & _ & Hb & _ & _ & Hnext).
  rewrite Hsep, <- Hsep0, Hflag in Hnext.
  set (flag := RandomName.flag_or_false (RandomNameOptions.capitalize options))
    in *.
  exists a, b, (capitalized flag a), (capitalized flag b),
    (if RandomName.addNumbers (RandomName.after i this)
     then RandomName.separator this +:+ pretty k else EmptyString).
  split; [by eapply list_elem_of_lookup_2|].
  split; [by eapply list_elem_of_lookup_2|].
  split.
  { rewrite Hnext. cbn [fst].
    destruct (RandomName.addNumbers (RandomName.after i this));
      [reflexivity|]. by rewrite append_empty_r. }
  unfold flag. split.
  - intros ->. cbn [RandomName.flag_or_false capitalized].
    split; [reflexivity|]. split; [reflexivity|].
    split; intros c rest ->; reflexivity.
  - intros [-> | ->]; split; reflexivity.
Qed.

(** The sampler of [{seed: 1n, separator: "-", capitalize: true}] over the
    test double, at the third of its names. *)
Lemma capitalize_first_character_only_witness :
  let options := TestDouble.seeded 1 (Some "-") true false in
  let this : @RandomName.t TestDouble.prng :=
    @RandomName.Build TestDouble.prng 1 TestDouble.P1 "-" true false in
  TestDouble.constructor options TestDouble.zero = Normal this /\
  @adjectives TestDouble.names <> [] /\ @animals TestDouble.names <> [] /\
  Z.of_nat (length (@adjectives TestDouble.names)) < 2 ^ 32 /\
  Z.of_nat (length (@animals TestDouble.names)) < 2 ^ 32 /\
  TestDouble.sequence 3 this
  = [Normal "Brave-Lynx"; Normal "Calm-Otter"; Normal "Brave-Lynx"] /\
  Normal "Calm-Otter" ∈ TestDouble.sequence 3 this /\
  exists (a b suffix : string),
    a ∈ @adjectives TestDouble.names /\ b ∈ @animals TestDouble.names /\
    Normal "Calm-Otter" =
      Normal (((TestDouble.upper_string (charAt0 a) +:+ slice1 a)
               +:+ "-"
               +:+ (TestDouble.upper_string (charAt0 b) +:+ slice1 b))
              +:+ suffix).
Proof.
  intros options this.
  assert (Hnew : TestDouble.constructor options TestDouble.zero = Normal this)
    by reflexivity.
  assert (Hadj : @adjectives TestDouble.names <> []) by discriminate.
  assert (Hani : @animals TestDouble.names <> []) by discriminate.
  assert (Hladj : Z.of_nat (length (@adjectives TestDouble.names)) < 2 ^ 32)
    by reflexivity.
  assert (Hlani : Z.of_nat (length (@animals TestDouble.names)) < 2 ^ 32)
    by reflexivity.
  assert (Hseq : TestDouble.sequence 3 this
    = [Normal "Brave-Lynx"; Normal "Calm-Otter"; Normal "Brave-Lynx"])
    by (vm_compute; reflexivity).
  assert (Hin : Normal "Calm-Otter" ∈ TestDouble.sequence 3 this)
    by (rewrite Hseq; apply list_elem_of_further, list_elem_of_here).
  repeat (split; [assumption|]).
  destruct (@capitalize_first_character_only TestDouble.prng TestDouble.names
              TestDouble.locale options TestDouble.zero this 3
              (Normal "Calm-Otter") Hnew Hadj Hani Hladj Hlani Hin)
    as (a & b & w1 & w2 & suffix & Ha & Hb & Hname & Hcap & _).
  destruct (Hcap eq_refl) as (-> & -> & _).
  exists a, b, suffix. repeat (split; [assumption|]). exact Hname.
Defined.

(** C6: with non-empty vocabularies (of a length an array can have) the
    index [pick] computes from its draw is in bounds, so [pick] returns an
    element of the list it is given, and the name [next] returns is built
    from an adjective of the adjective list and an animal of the animal
    list. *)
Theorem picks_in_vocabulary `{Prng, Names, Locale}
    (this : RandomName.t) :
  adjectives <> [] -> animals <> [] ->
  Z.of_nat (length adjectives) < 2 ^ 32 ->
  Z.of_nat (length animals) < 2 ^ 32 ->
  let c1 := prng_call (RandomName.nextRnd this) in
  let this1 := RandomName.with_nextRnd this c1.2 in
  let c2 := prng_call c1.2 in
  exists (i j : nat) (a b suffix : string),
    RandomName.scaled c1.1 (Z.of_nat (length adjectives))
      = Number.Int (Z.of_nat i) /\
    (i < length adjectives)%nat /\ adjectives !! i = Some a /\
    RandomName.pick adjectives this = (Some a, this1) /\
    RandomName.scaled c2.1 (Z.of_nat (length animals))
      = Number.Int (Z.of_nat j) /\
    (j < length animals)%nat /\ animals !! j = Some b /\
    RandomName.pick animals this1
      = (Some b, RandomName.with_nextRnd this c2.2) /\
    a ∈ adjectives /\ b ∈ animals /\
    (RandomName.next this).1 =
      Normal ((capitalized (RandomName.capitalize this) a
               +:+ RandomName.separator this
               +:+ capitalized (RandomName.capitalize this) b) +:+ suffix).
Proof.
  intros Hadj Hani Hladj Hlani c1 this1 c2.
  destruct (next_spec this Hadj Hani Hladj Hlani)
    as (i & j & a & b & k & Hi & Ha & Hj & Hb & _ & _ & Hnext).
  destruct (pick_spec adjectives this Hadj Hladj)
    as (i' & a' & _ & Ha' & Hi' & Hpick1).
  destruct (pick_spec animals this1 Hani Hlani)
    as (j' & b' & _ & Hb' & Hj' & Hpick2).
  fold c1 in Hi, Hi'. rewrite Hi in Hi'. injection Hi' as Hii.
  apply Nat2Z.inj in Hii. subst i'.
  change (prng_call (RandomName.nextRnd this1)) with c2 in Hj', Hpick2.
  change (prng_call (prng_call (RandomName.nextRnd this)).2) with c2 in Hj.
  rewrite Hj in Hj'. injection Hj' as Hjj. apply Nat2Z.inj in Hjj. subst j'.
  rewrite Ha in Ha'. injection Ha' as <-.
  rewrite Hb in Hb'. injection Hb' as <-.
  exists i, j, a, b,
    (if RandomName.addNumbers this
     then RandomName.separator this +:+ pretty k else EmptyString).
  split; [exact Hi|]. split; [by eapply lookup_lt_Some|]. split; [exact Ha|].
  split; [exact Hpick1|].
  split; [exact Hj|]. split; [by eapply lookup_lt_Some|]. split; [exact Hb|].
  split; [exact Hpick2|].
  split; [by eapply list_elem_of_lookup_2|].
  split; [by eapply list_elem_of_lookup_2|].
  rewrite Hnext. cbn [fst]. destruct (RandomName.addNumbers this);
    [reflexivity|]. by rewrite append_empty_r.
Qed.

(** A sampler over the two-by-two vocabulary of the test double. *)
Lemma picks_in_vocabulary_witness :
  let this : @RandomName.t TestDouble.prng :=
    @RandomName.Build TestDouble.prng 2 TestDouble.P2 " " false false in
  @adjectives TestDouble.names <> [] /\ @animals TestDouble.names <> [] /\
  Z.of_nat (length (@adjectives TestDouble.names)) < 2 ^ 32 /\
  Z.of_nat (length (@animals TestDouble.names)) < 2 ^ 32 /\
  exists (i j : nat) (a b : string),
    (i < 2)%nat /\ @adjectives TestDouble.names !! i = Some a /\
    (j < 2)%nat /\ @animals TestDouble.names !! j = Some b /\
    a ∈ @adjectives TestDouble.names /\ b ∈ @animals TestDouble.names.
Proof.
  intros this.
  assert (Hadj : @adjectives TestDouble.names <> []) by discriminate.
  assert (Hani : @animals TestDouble.names <> []) by discriminate.
  assert (Hladj : Z.of_nat (length (@adjectives TestDouble.names)) < 2 ^ 32)
    by reflexivity.
  assert (Hlani : Z.of_nat (length (@animals TestDouble.names)) < 2 ^ 32)
    by reflexivity.
  repeat (split; [assumption|]).
  destruct (@picks_in_vocabulary TestDouble.prng TestDouble.names
              TestDouble.locale this Hadj Hani Hladj Hlani)
    as (i & j & a & b & suffix & _ & Hi & Ha & _ & _ & Hj & Hb & _ & Hain
        & Hbin & _).
  exists i, j, a, b. repeat (split; [assumption|]). exact Hbin.
Defined.

(** C7: in explicit-name mode, when the options carry a name (a non-empty
    string: the parser's value for no name is the empty string),
    [getProjectName] returns that name unchanged and hands no path to
    [existsSync], whatever the directory holds and however few steps are
    allowed. *)
Theorem explicit_name_unchecked `{Prng, Names, Locale}
    (existsSync : string -> bool)
    (options : Options.t) (random : unit_number) (fuel : nat) (n : string) :
  Options.name options = Some n -> n <> "" ->
  Main.getProjectName existsSync fuel options random
  = {| result := Some (Normal n); probes := [] |}.
Proof.
  intros Hname Hn. unfold Main.getProjectName. rewrite Hname.
  destruct n as [|c n]; [contradiction|]. reflexivity.
Qed.

(** The name [bar] is returned although [/box/bar] exists, and without a
    single step of either loop. *)
Lemma explicit_name_unchecked_witness :
  let options := TestDouble.options (Some "bar") None in
  Options.name options = Some "bar" /\ "bar" <> "" /\
  TestDouble.getProjectName (directory "/box" {["bar"]}) 0 options
    TestDouble.zero
  = {| result := Some (Normal "bar"); probes := [] |}.
Proof.
  intros options.
  assert (Hn : "bar" <> "") by discriminate.
  split; [reflexivity|]. split; [exact Hn|].
  exact (@explicit_name_unchecked TestDouble.prng TestDouble.names
           TestDouble.locale (directory "/box" {["bar"]}) options
           TestDouble.zero 0 "bar" eq_refl Hn).
Defined.

(** C8: with both a name and a copy base in the options the name wins:
    [getProjectName] returns the name, and no candidate of the copy branch
    is built or probed. *)
Theorem explicit_name_precedes_copy `{Prng, Names, Locale}
    (existsSync : string -> bool)
    (options : Options.t) (random : unit_number) (fuel : nat)
    (n base : string) :
  Options.name options = Some n -> n <> "" ->
  Options.copy options = Some base ->
  Main.getProjectName existsSync fuel options random
  = {| result := Some (Normal n); probes := [] |} /\
  forall k,
    path_of options (copy_candidate base k)
    ∉ probes (Main.getProjectName existsSync fuel options random).
Proof.
  intros Hname Hn Hcopy.
  assert (Hrun : Main.getProjectName existsSync fuel options random
                 = {| result := Some (Normal n); probes := [] |}).
  { unfold Main.getProjectName. rewrite Hname.
    destruct n as [|c n]; [contradiction|]. reflexivity. }
  split; [exact Hrun|]. intros k. rewrite Hrun. apply not_elem_of_nil.
Qed.

(** Name [bar] and copy base [foo]: [bar] is returned, nothing is probed. *)
Lemma explicit_name_precedes_copy_witness :
  let options := TestDouble.options (Some "bar") (Some "foo") in
  Options.name options = Some "bar" /\ "bar" <> "" /\
  Options.copy options = Some "foo" /\
  TestDouble.getProjectName (directory "/box" ∅) 5 options TestDouble.zero
  = {| result := Some (Normal "bar"); probes := [] |}.
Proof.
  intros options.
  assert (Hn : "bar" <> "") by discriminate.
  split; [reflexivity|]. split; [exact Hn|]. split; [reflexivity|].
  exact (proj1 (@explicit_name_precedes_copy TestDouble.prng TestDouble.names
                  TestDouble.locale (directory "/box" ∅) options
                  TestDouble.zero 5 "bar" "foo" eq_refl Hn eq_refl)).
Defined.

(** C9: a sampler constructed with the separator [""] is the sampler
    constructed without a separator, so the two return the same names; its
    separator is a single space, and the words of every name it returns,
    the first and every later one, are joined by that space. *)
Theorem empty_separator_is_space `{Prng, Names, Locale}
    (seed : option Z)
    (capitalize addNumbers : option bool) (random : unit_number) :
  let configured separator :=
    {| RandomNameOptions.seed := seed;
       RandomNameOptions.separator := separator;
       RandomNameOptions.capitalize := capitalize;
       RandomNameOptions.addNumbers := addNumbers |} in
  RandomName.constructor (configured (Some "")) random
    = RandomName.constructor (configured None) random /\
  (forall n,
     RandomName.run (configured (Some "")) random n
     = RandomName.run (configured None) random n) /\
  (forall this,
     RandomName.constructor (configured (Some "")) random = Normal this ->
     RandomName.separator this = " " /\
     (adjectives <> [] -> animals <> [] ->
      Z.of_nat (length adjectives) < 2 ^ 32 ->
      Z.of_nat (length animals) < 2 ^ 32 ->
      forall n name,
        name ∈ RandomName.sequence n this ->
        exists a b suffix,
          a ∈ adjectives /\ b ∈ animals /\
          name =
            Normal ((capitalized (RandomName.capitalize this) a +:+ " "
                     +:+ capitalized (RandomName.capitalize this) b)
                    +:+ suffix))).
Proof.
  intros configured. split; [reflexivity|]. split; [reflexivity|].
  intros this Hnew.
  destruct (after_constructor (configured (Some "")) random this 0 Hnew)
    as (Hsep0 & Hcap0 & _).
  cbn [RandomName.after] in Hsep0, Hcap0.
  change (RandomName.separator_or_space
            (RandomNameOptions.separator (configured (Some ""))))
    with " " in Hsep0.
  split; [exact Hsep0|]. intros Hadj Hani Hladj Hlani n name Hin.
  destruct (sequence_elem n this name Hin) as (i & _ & ->).
  destruct (after_keeps_configuration i this) as (Hsep & Hcap & _).
  destruct (next_spec (RandomName.after i this) Hadj Hani Hladj Hlani)
    as (j1 & j2 & a & b & k & _ & Ha & _ & Hb & _ & _ & Hnext).
  rewrite Hsep, Hcap, Hsep0 in Hnext.
  exists a, b,
    (if RandomName.addNumbers (RandomName.after i this)
     then " " +:+ pretty k else EmptyString).
  split; [by eapply list_elem_of_lookup_2|].
  split; [by eapply list_elem_of_lookup_2|].
  rewrite Hnext. cbn [fst].
  destruct (RandomName.addNumbers (RandomName.after i this));
    [reflexivity|]. by rewrite append_empty_r.
Qed.

(** The sampler of [{seed: 1n, separator: ""}] over the test double, at
    the second of its names. *)
Lemma empty_separator_is_space_witness :
  let options := TestDouble.seeded 1 (Some "") false false in
  let this : @RandomName.t TestDouble.prng :=
    @RandomName.Build TestDouble.prng 1 TestDouble.P1 " " false false in
  TestDouble.constructor options TestDouble.zero = Normal this /\
  @adjectives TestDouble.names <> [] /\ @animals TestDouble.names <> [] /\
  Z.of_nat (length (@adjectives TestDouble.names)) < 2 ^ 32 /\
  Z.of_nat (length (@animals TestDouble.names)) < 2 ^ 32 /\
  Normal "calm otter" ∈ TestDouble.sequence 2 this /\
  RandomName.separator this = " " /\
  exists a b suffix,
    a ∈ @adjectives TestDouble.names /\ b ∈ @animals TestDouble.names /\
    Normal "calm otter" = Normal ((a +:+ " " +:+ b) +:+ suffix).
Proof.
  intros options this.
  assert (Hnew : TestDouble.constructor options TestDouble.zero = Normal this)
    by reflexivity.
  assert (Hadj : @adjectives TestDouble.names <> []) by discriminate.
  assert (Hani : @animals TestDouble.names <> []) by discriminate.
  assert (Hladj : Z.of_nat (length (@adjectives TestDouble.names)) < 2 ^ 32)
    by reflexivity.
  assert (Hlani : Z.of_nat (length (@animals TestDouble.names)) < 2 ^ 32)
    by reflexivity.
  assert (Hseq : TestDouble.sequence 2 this
    = [Normal "brave lynx"; Normal "calm otter"])
    by (vm_compute; reflexivity).
  assert (Hin : Normal "calm otter" ∈ TestDouble.sequence 2 this)
    by (rewrite Hseq; apply list_elem_of_further, list_elem_of_here).
  repeat (split; [assumption|]).
  destruct (@empty_separator_is_space TestDouble.prng TestDouble.names
              TestDouble.locale (Some 1) (Some false) (Some false)
              TestDouble.zero) as (_ & _ & Hthis).
  destruct (Hthis this Hnew) as [Hsep Hjoin].
  split; [exact Hsep|].
  exact (Hjoin Hadj Hani Hladj Hlani 2%nat (Normal "calm otter") Hin).
Defined.

Lemma copy_loop_agrees `{Prng, Names, Locale}
    (existsSync : string -> bool) (options : Options.t)
    (base : string) (fuel : nat) :
  forall x i,
    Monolith.copy_loop existsSync fuel options base x i
    = Main.copy_loop existsSync fuel options base x i.
Proof.
  induction fuel as [|fuel IH]; intros x i; [reflexivity|].
  cbn [Monolith.copy_loop Main.copy_loop].
  destruct (existsSync _); [|reflexivity]. by rewrite IH.
Qed.

Lemma random_loop_agrees `{Prng, Names, Locale}
    (existsSync : string -> bool) (options : Options.t)
    (fuel : nat) :
  forall randomName,
    Monolith.random_loop existsSync fuel options randomName
    = Main.random_loop existsSync fuel options randomName.
Proof.
  induction fuel as [|fuel IH]; intros randomName; [reflexivity|].
  cbn [Monolith.random_loop Main.random_loop].
  destruct (RandomName.next randomName) as [[x|e] randomName'];
    [|reflexivity].
  destruct (existsSync _); [|reflexivity]. by rewrite IH.
Qed.

(** C10: the [getProjectName] of the older monolithic main and the one of
    main.ts agree on every options value, every existence predicate, every
    value of [Math.random()] and every number of steps allowed: same
    result, same probes. *)
Theorem monolith_agrees `{Prng, Names, Locale}
    (existsSync : string -> bool) (options : Options.t)
    (random : unit_number) (fuel : nat) :
  Monolith.getProjectName existsSync fuel options random
  = Main.getProjectName existsSync fuel options random.
Proof.
  unfold Monolith.getProjectName, Main.getProjectName.
  destruct (Options.supplied (Options.name options)); [reflexivity|].
  destruct (Options.supplied (Options.copy options)).
  - apply copy_loop_agrees.
  - destruct (RandomName.constructor _ random); [|reflexivity].
    apply random_loop_agrees.
Qed.

(** * Further properties *)

(** * Further properties of the sampler and the resolver *)

(** X1: the constructor never throws, whatever the options and the value of
    [Math.random()].  It keeps a seed of the options that is not [0n]; for
    an absent seed, or the seed [0n], it keeps a random integer, at least 0
    and below [Number.MAX_SAFE_INTEGER]. *)
Theorem constructor_returns `{Prng} (options : RandomNameOptions.t)
    (random : unit_number) :
  exists this,
    RandomName.constructor options random = Normal this /\
    match RandomNameOptions.seed options with
    | Some s =>
      if s =? 0 then 0 <= RandomName.seed this < 2 ^ 53 - 1
      else RandomName.seed this = s
    | None => 0 <= RandomName.seed this < 2 ^ 53 - 1
    end.
Proof.
  destruct (random_seed_normal random) as (k & Hk & Hrange).
  unfold RandomName.constructor, RandomName.seed_or_random.
  destruct (RandomNameOptions.seed options) as [s|].
  - destruct (s =? 0).
    + rewrite Hk. eexists. split; [reflexivity|exact Hrange].
    + eexists. split; reflexivity.
  - rewrite Hk. eexists. split; [reflexivity|exact Hrange].
Qed.

Lemma append_assoc (a b c : string) : (a +:+ b) +:+ c = a +:+ b +:+ c.
Proof.
  induction a as [|x a IH]; [reflexivity|].
  change (String x ((a +:+ b) +:+ c) = String x (a +:+ b +:+ c)).
  by rewrite IH.
Qed.

Lemma scaled_zero (v : unit_number) : RandomName.scaled v 0 = Number.Int 0.
Proof.
  unfold RandomName.scaled. destruct v as [[s|s| |s m e] Hv]; cbn [unit_value].
  - reflexivity.
  - destruct s; vm_compute in Hv; discriminate Hv.
  - vm_compute in Hv; discriminate Hv.
  - reflexivity.
Qed.

Lemma pick_empty `{Prng} {T : Type} (this : RandomName.t) :
  RandomName.pick (@nil T) this
  = (None, RandomName.with_nextRnd this (prng_call (RandomName.nextRnd this)).2).
Proof.
  unfold RandomName.pick. destruct (prng_call (RandomName.nextRnd this)) as [v g].
  cbn [length Z.of_nat]. rewrite scaled_zero. reflexivity.
Qed.

(** X2: with an empty list of adjectives [pick] returns [undefined].  If
    [capitalize] is set, [next] then throws a [TypeError] ([charAt] of
    [undefined]) after one draw; if not, it returns a name that starts with
    the text [undefined]. *)
Theorem next_without_adjectives `{Prng, Names, Locale} (this : RandomName.t) :
  adjectives = [] ->
  if RandomName.capitalize this
  then RandomName.next this
       = (Throw TypeError,
          RandomName.with_nextRnd this
            (prng_call (RandomName.nextRnd this)).2)
  else exists rest,
    (RandomName.next this).1
    = Normal ("undefined" +:+ RandomName.separator this +:+ rest).
Proof.
  intros Hadj. unfold RandomName.next. rewrite Hadj, pick_empty.
  destruct (RandomName.capitalize this) eqn:Hcap; cbn [RandomName.capitalize_word].
  - reflexivity.
  - destruct (RandomName.pick animals _) as [animal this2].
    cbn [String_of].
    destruct (RandomName.addNumbers this).
    + destruct (prng_call (RandomName.nextRnd this2)) as [v g].
      cbn [fst]. eexists. rewrite !append_assoc. reflexivity.
    + cbn [fst]. eexists. reflexivity.
Qed.

Lemma next_without_adjectives_witness :
  let this : @RandomName.t TestDouble.prng :=
    @RandomName.Build TestDouble.prng 1 TestDouble.P1 "-" false true in
  @adjectives TestEdge.names = [] /\
  exists rest, (TestEdge.next this).1 = Normal ("undefined" +:+ "-" +:+ rest).
Proof.
  intros this. split; [reflexivity|].
  exact (@next_without_adjectives TestDouble.prng TestEdge.names
           TestDouble.locale this eq_refl).
Defined.

(** X3: the number [next] appends is written without padding: for every
    draw it is an integer from 0 to 99 whose text has one character below
    10 and two characters from 10 on. *)
Theorem number_suffix_unpadded (v : unit_number) :
  exists k,
    RandomName.scaled v 100 = Number.Int k /\ 0 <= k < 100 /\
    String.length (Number_toString (RandomName.scaled v 100))
    = if k <? 10 then 1%nat else 2%nat.
Proof.
  destruct (scaled_bound v 100) as (k & Hk & Hrange); [done|].
  exists k. split; [exact Hk|]. split; [exact Hrange|]. rewrite Hk.
  cbn [Number_toString].
  assert (Hall : forallb (fun n : nat =>
    Nat.eqb (String.length (pretty (Z.of_nat n)))
            (if Z.of_nat n <? 10 then 1 else 2)) (seq 0 100) = true)
    by (vm_compute; reflexivity).
  rewrite forallb_forall in Hall.
  specialize (Hall (Z.to_nat k)). rewrite Z2Nat.id in Hall by lia.
  apply Nat.eqb_eq, Hall, in_seq. lia.
Qed.


Section FreshMode.
Context `{Prng, Names, Locale}.
Variable existsSync : string -> bool.

Lemma random_loop_never_throws (options : Options.t) (fuel : nat) :
  forall randomName e,
    RandomName.capitalize randomName = false ->
    result (Main.random_loop existsSync fuel options randomName)
    <> Some (Throw e).
Proof.
  induction fuel as [|fuel IH]; intros randomName e Hcap; [discriminate|].
  cbn [Main.random_loop].
  destruct (next_without_capitalize randomName Hcap) as [x Hx].
  pose proof (next_keeps_configuration randomName) as (_ & Hcap' & _).
  destruct (RandomName.next randomName) as [r randomName'].
  cbn [fst snd] in *. subst r.
  destruct (existsSync _); cbn [result probed]; [|discriminate].
  apply IH. congruence.
Qed.
End FreshMode.

(** X4: [getProjectName] never throws of its own, for any options, answers
    of [existsSync], value of [Math.random()], vocabulary (an empty one
    too) and number of steps: the sampler it constructs does not
    capitalize, which is the only place [next] can throw. *)
Theorem getProjectName_never_throws `{Prng, Names, Locale}
    (existsSync : string -> bool) (options : Options.t)
    (random : unit_number) (fuel : nat) (e : exn) :
  result (Main.getProjectName existsSync fuel options random)
  <> Some (Throw e).
Proof.
  unfold Main.getProjectName.
  destruct (Options.supplied (Options.name options)); [discriminate|].
  destruct (Options.supplied (Options.copy options)) as [base|].
  - generalize (base +:+ "-copy") 1%N. 
    induction fuel as [|fuel IH]; intros x i; [discriminate|].
    cbn [Main.copy_loop]. destruct (existsSync _); cbn [result probed];
      [apply IH|discriminate].
  - destruct (constructor_fields
                {| RandomNameOptions.seed := None;
                   RandomNameOptions.separator := Some "-";
                   RandomNameOptions.capitalize := None;
                   RandomNameOptions.addNumbers := Some true |} random)
      as (s & _ & ->).
    by apply random_loop_never_throws.
Qed.

Section FreshModeNames.
Context `{Prng, Names, Locale}.
Variable existsSync : string -> bool.

Lemma random_loop_format (options : Options.t) (fuel : nat) :
  adjectives <> [] -> animals <> [] ->
  Z.of_nat (length adjectives) < 2 ^ 32 ->
  Z.of_nat (length animals) < 2 ^ 32 ->
  forall randomName x,
    RandomName.separator randomName = "-" ->
    RandomName.capitalize randomName = false ->
    RandomName.addNumbers randomName = true ->
    result (Main.random_loop existsSync fuel options randomName)
      = Some (Normal x) ->
    exists a b k,
      a ∈ adjectives /\ b ∈ animals /\ 0 <= k < 100 /\
      x = (a +:+ "-" +:+ b) +:+ "-" +:+ pretty k.
Proof.
  intros Hadj Hani Hladj Hlani.
  induction fuel as [|fuel IH]; intros randomName x Hsep Hcap Hadd;
    [discriminate|].
  cbn [Main.random_loop].
  destruct (next_spec randomName Hadj Hani Hladj Hlani)
    as (i & j & a & b & k & _ & Ha & _ & Hb & _ & Hk & Hnext).
  pose proof (next_keeps_configuration randomName) as (Hsep' & Hcap' & Hadd').
  rewrite Hsep, Hcap, Hadd in Hnext. cbn [capitalized] in Hnext.
  destruct (RandomName.next randomName) as [r randomName'].
  injection Hnext as -> _. cbn [snd] in *.
  destruct (existsSync _); cbn [result probed].
  - apply IH; congruence.
  - intros [= <-]. exists a, b, k.
    split; [by eapply list_elem_of_lookup_2|].
    split; [by eapply list_elem_of_lookup_2|]. split; [exact Hk|reflexivity].
Qed.

Lemma random_loop_returns (options : Options.t) (fuel : nat) :
  forall randomName x,
    result (Main.random_loop existsSync fuel options randomName)
      = Some (Normal x) ->
    exists names,
      (length names < fuel)%nat /\
      RandomName.sequence (S (length names)) randomName
        = Normal <$> (names ++ [x]) /\
      Forall (fun y => existsSync (path_of options y) = true) names /\
      existsSync (path_of options x) = false /\
      probes (Main.random_loop existsSync fuel options randomName)
        = path_of options <$> (names ++ [x]).
Proof.
  induction fuel as [|fuel IH]; intros randomName x; [discriminate|].
  cbn [Main.random_loop RandomName.sequence].
  destruct (RandomName.next randomName) as [[y|e] randomName'];
    [|discriminate].
  destruct (existsSync (Options.root options +:+ "/" +:+ y)) eqn:Hy;
    cbn [result probes probed].
  - intros Hx. destruct (IH randomName' x Hx)
      as (names & Hlen & Hseq & Hall & Hfree & Hprobes).
    exists (y :: names). cbn [length app fmap list_fmap].
    split; [lia|]. split.
    { change (RandomName.sequence (S (length names)) randomName')
        with (let '(r, this') := RandomName.next randomName' in
              r :: RandomName.sequence (length names) this') in Hseq.
      cbn [RandomName.sequence]. rewrite Hseq. reflexivity. }
    split; [by constructor|]. split; [exact Hfree|].
    rewrite Hprobes. reflexivity.
  - intros [= <-]. exists []. cbn [length app fmap list_fmap].
    split; [lia|]. split; [reflexivity|]. split; [constructor|].
    split; [exact Hy|reflexivity].
Qed.
Lemma random_loop_first_unused (options : Options.t) (names : list string) :
  forall fuel randomName x,
    RandomName.sequence (S (length names)) randomName
      = Normal <$> (names ++ [x]) ->
    Forall (fun y => existsSync (path_of options y) = true) names ->
    existsSync (path_of options x) = false ->
    (length names < fuel)%nat ->
    Main.random_loop existsSync fuel options randomName
    = {| result := Some (Normal x);
         probes := path_of options <$> (names ++ [x]) |}.
Proof.
  induction names as [|y names IH]; intros fuel randomName x Hseq Hall Hfree
    Hfuel; (destruct fuel as [|fuel]; [cbn [length] in Hfuel; lia|]).
  - cbn [length RandomName.sequence app fmap list_fmap] in Hseq.
    cbn [Main.random_loop].
    destruct (RandomName.next randomName) as [r randomName'].
    injection Hseq as ->. unfold path_of in Hfree. rewrite Hfree.
    reflexivity.
  - change (RandomName.sequence (S (length (y :: names))) randomName)
      with (let '(r, this') := RandomName.next randomName in
            r :: RandomName.sequence (S (length names)) this') in Hseq.
    cbn [Main.random_loop].
    destruct (RandomName.next randomName) as [r randomName'].
    cbn [app fmap list_fmap] in Hseq. injection Hseq as -> Hseq.
    apply Forall_cons in Hall as [Hy Hall]. unfold path_of in Hy.
    rewrite Hy. cbn [length] in Hfuel.
    rewrite (IH fuel randomName' x Hseq Hall Hfree) by lia.
    reflexivity.
Qed.
End FreshModeNames.

(** X5: in fresh-name mode (neither name nor copy base) and over non-empty
    word lists, a name [getProjectName] returns is an adjective of the
    list, a hyphen, an animal of the list, a hyphen and an integer from 0
    to 99. *)
Theorem fresh_name_format `{Prng, Names, Locale}
    (existsSync : string -> bool) (options : Options.t)
    (random : unit_number) (fuel : nat) (x : string) :
  Options.supplied (Options.name options) = None ->
  Options.supplied (Options.copy options) = None ->
  adjectives <> [] -> animals <> [] ->
  Z.of_nat (length adjectives) < 2 ^ 32 ->
  Z.of_nat (length animals) < 2 ^ 32 ->
  result (Main.getProjectName existsSync fuel options random)
    = Some (Normal x) ->
  exists a b k,
    a ∈ adjectives /\ b ∈ animals /\ 0 <= k < 100 /\
    x = (a +:+ "-" +:+ b) +:+ "-" +:+ pretty k.
Proof.
  intros Hname Hcopy Hadj Hani Hladj Hlani. unfold Main.getProjectName.
  rewrite Hname, Hcopy.
  destruct (constructor_fields
              {| RandomNameOptions.seed := None;
                 RandomNameOptions.separator := Some "-";
                 RandomNameOptions.capitalize := None;
                 RandomNameOptions.addNumbers := Some true |} random)
    as (s & _ & ->).
  by apply random_loop_format.
Qed.

(** X6: in fresh-name mode [getProjectName] returns the first name of the
    sampler's sequence whose path does not exist.  If the names drawn
    first all exist and the one drawn after them does not, and more steps
    are allowed than there are names before it, the run returns that name
    and its probes are the paths of the names drawn, in the order drawn,
    the returned one last.  And a name the run returns is always found
    that way. *)
Theorem fresh_name_is_first_unused `{Prng, Names, Locale}
    (existsSync : string -> bool) (options : Options.t)
    (random : unit_number) (fuel : nat) :
  Options.supplied (Options.name options) = None ->
  Options.supplied (Options.copy options) = None ->
  let sampler :=
    {| RandomNameOptions.seed := None;
       RandomNameOptions.separator := Some "-";
       RandomNameOptions.capitalize := None;
       RandomNameOptions.addNumbers := Some true |} in
  (forall names x,
     RandomName.run sampler random (S (length names))
     = Normal (Normal <$> (names ++ [x])) ->
     Forall (fun y => existsSync (path_of options y) = true) names ->
     existsSync (path_of options x) = false ->
     (length names < fuel)%nat ->
     Main.getProjectName existsSync fuel options random
     = {| result := Some (Normal x);
          probes := path_of options <$> (names ++ [x]) |}) /\
  (forall x,
     result (Main.getProjectName existsSync fuel options random)
       = Some (Normal x) ->
     exists names,
       (length names < fuel)%nat /\
       RandomName.run sampler random (S (length names))
       = Normal (Normal <$> (names ++ [x])) /\
       Forall (fun y => existsSync (path_of options y) = true) names /\
       existsSync (path_of options x) = false /\
       probes (Main.getProjectName existsSync fuel options random)
       = path_of options <$> (names ++ [x])).
Proof.
  intros Hname Hcopy sampler. unfold Main.getProjectName, RandomName.run.
  rewrite Hname, Hcopy. fold sampler.
  destruct (RandomName.constructor sampler random) as [randomName|e]; split.
  - intros names x Hseq Hall Hfree Hfuel.
    apply random_loop_first_unused; [|assumption..].
    cbn in Hseq. by injection Hseq.
  - intros x Hx.
    destruct (random_loop_returns existsSync options fuel _ _ Hx)
      as (names & Hlen & Hseq & Hall & Hfree & Hprobes).
    exists names. split; [exact Hlen|]. split; [|auto].
    change (Normal (RandomName.sequence (S (length names)) randomName)
            = Normal (Normal <$> (names ++ [x]))).
    by rewrite Hseq.
  - intros names x Hseq. discriminate Hseq.
  - intros x Hx. discriminate Hx.
Qed.

Lemma fresh_name_format_witness :
  let options := TestDouble.options None None in
  let existsSync := directory "/box" {["brave-otter-50"]} in
  Options.supplied (Options.name options) = None /\
  Options.supplied (Options.copy options) = None /\
  @adjectives TestDouble.names <> [] /\ @animals TestDouble.names <> [] /\
  Z.of_nat (length (@adjectives TestDouble.names)) < 2 ^ 32 /\
  Z.of_nat (length (@animals TestDouble.names)) < 2 ^ 32 /\
  result (TestDouble.getProjectName existsSync 5 options TestDouble.zero)
    = Some (Normal "calm-otter-25") /\
  exists a b k,
    a ∈ @adjectives TestDouble.names /\ b ∈ @animals TestDouble.names /\
    0 <= k < 100 /\
    "calm-otter-25" = (a +:+ "-" +:+ b) +:+ "-" +:+ pretty k.
Proof.
  intros options existsSync.
  assert (Hadj : @adjectives TestDouble.names <> []) by discriminate.
  assert (Hani : @animals TestDouble.names <> []) by discriminate.
  assert (Hladj : Z.of_nat (length (@adjectives TestDouble.names)) < 2 ^ 32)
    by reflexivity.
  assert (Hlani : Z.of_nat (length (@animals TestDouble.names)) < 2 ^ 32)
    by reflexivity.
  assert (Hrun : result (TestDouble.getProjectName existsSync 5 options
                           TestDouble.zero)
                 = Some (Normal "calm-otter-25")) by (vm_compute; reflexivity).
  split; [reflexivity|]. split; [reflexivity|].
  repeat (split; [assumption|]).
  exact (@fresh_name_format TestDouble.prng TestDouble.names
           TestDouble.locale existsSync options TestDouble.zero 5
           "calm-otter-25" eq_refl eq_refl Hadj Hani Hladj Hlani Hrun).
Defined.

(** The first name drawn, [brave-otter-50], is taken: two probes, and the
    second name drawn is returned. *)
Lemma fresh_name_is_first_unused_witness :
  let options := TestDouble.options None None in
  let existsSync := directory "/box" {["brave-otter-50"]} in
  let sampler :=
    {| RandomNameOptions.seed := None;
       RandomNameOptions.separator := Some "-";
       RandomNameOptions.capitalize := None;
       RandomNameOptions.addNumbers := Some true |} in
  Options.supplied (Options.name options) = None /\
  Options.supplied (Options.copy options) = None /\
  TestDouble.run sampler TestDouble.zero 2
  = Normal [Normal "brave-otter-50"; Normal "calm-otter-25"] /\
  Forall (fun y => existsSync (path_of options y) = true)
    ["brave-otter-50"] /\
  existsSync (path_of options "calm-otter-25") = false /\
  (1 < 5)%nat /\
  TestDouble.getProjectName existsSync 5 options TestDouble.zero
  = {| result := Some (Normal "calm-otter-25");
       probes := ["/box/brave-otter-50"; "/box/calm-otter-25"] |} /\
  exists names,
    Forall (fun y => existsSync (path_of options y) = true) names /\
    probes (TestDouble.getProjectName existsSync 5 options TestDouble.zero)
    = path_of options <$> (names ++ ["calm-otter-25"]).
Proof.
  intros options existsSync sampler.
  assert (Hrun : TestDouble.run sampler TestDouble.zero 2
    = Normal [Normal "brave-otter-50"; Normal "calm-otter-25"])
    by (vm_compute; reflexivity).
  assert (Hall : Forall (fun y => existsSync (path_of options y) = true)
                   ["brave-otter-50"])
    by (constructor; [vm_compute; reflexivity|constructor]).
  assert (Hfree : existsSync (path_of options "calm-otter-25") = false)
    by (vm_compute; reflexivity).
  assert (Hfuel : (1 < 5)%nat) by lia.
  destruct (@fresh_name_is_first_unused TestDouble.prng TestDouble.names
              TestDouble.locale existsSync options TestDouble.zero 5
              eq_refl eq_refl) as [Htotal Hconverse].
  pose proof (Htotal ["brave-otter-50"] "calm-otter-25" Hrun Hall Hfree Hfuel)
    as Hresult.
  split; [reflexivity|]. split; [reflexivity|].
  repeat (split; [assumption|]).
  destruct (Hconverse "calm-otter-25" (f_equal result Hresult))
    as (names & _ & _ & Hnames & _ & Hprobes).
  exists names. split; [exact Hnames|exact Hprobes].
Defined.

Lemma copy_suffix_returns_witness :
  let options := TestDouble.options None (Some "foo") in
  let taken : gset string := {["foo-copy"; "foo-copy-1"]} in
  Options.supplied (Options.name options) = None /\
  Options.supplied (Options.copy options) = Some "foo" /\
  exists k, (k <= size taken)%nat /\
    forall fuel, (k < fuel)%nat ->
      result (TestDouble.getProjectName (directory "/box" taken) fuel options
                TestDouble.zero)
      = Some (Normal (copy_candidate "foo" k)).
Proof.
  intros options taken. split; [reflexivity|]. split; [reflexivity|].
  destruct (@copy_suffix_returns TestDouble.prng TestDouble.names
              TestDouble.locale taken options "foo" TestDouble.zero
              eq_refl eq_refl) as (k & Hk & _ & _ & Hrun).
  exists k. split; [exact Hk|]. intros fuel Hfuel.
  unfold TestDouble.getProjectName.
  change (directory "/box" taken)
    with (directory (Options.root options) taken).
  by rewrite (Hrun fuel Hfuel).
Defined.

(** X8: in copy-suffix mode a name [getProjectName] returns is a candidate
    [base-copy], [base-copy-1], ...: the first one whose path does not
    exist; every candidate before it exists, and the probes are the paths
    of the candidates up to it, in order. *)
Theorem copy_result_is_first_free `{Prng, Names, Locale}
    (existsSync : string -> bool) (options : Options.t) (base : string)
    (random : unit_number) (fuel : nat) (r : string) :
  Options.supplied (Options.name options) = None ->
  Options.supplied (Options.copy options) = Some base ->
  result (Main.getProjectName existsSync fuel options random)
    = Some (Normal r) ->
  exists k,
    (k < fuel)%nat /\ r = copy_candidate base k /\
    (forall j, (j < k)%nat ->
       existsSync (path_of options (copy_candidate base j)) = true) /\
    existsSync (path_of options r) = false /\
    probes (Main.getProjectName existsSync fuel options random)
    = path_of options ∘ copy_candidate base <$> seq 0 (S k).
Proof.
  intros Hname Hcopy. unfold Main.getProjectName. rewrite Hname, Hcopy.
  intros Hr.
  destruct (copy_loop_returns_first_free existsSync options base fuel 0 r Hr)
    as (k & Hk & -> & Htaken & Hfree).
  exists k. cbn [Nat.add] in *. split; [exact Hk|]. split; [reflexivity|].
  split; [intros j Hj; apply Htaken; lia|]. split; [exact Hfree|].
  exact (f_equal probes
           (copy_loop_first_free existsSync options base k 0 fuel Hk Htaken
              Hfree)).
Qed.

Lemma copy_result_is_first_free_witness :
  let options := TestDouble.options None (Some "foo") in
  let existsSync := directory "/box" {["foo-copy"]} in
  Options.supplied (Options.name options) = None /\
  Options.supplied (Options.copy options) = Some "foo" /\
  result (TestDouble.getProjectName existsSync 4 options TestDouble.zero)
    = Some (Normal "foo-copy-1") /\
  exists k, (k < 4)%nat /\ "foo-copy-1" = copy_candidate "foo" k /\
    existsSync (path_of options "foo-copy-1") = false.
Proof.
  intros options existsSync.
  assert (Hrun : result (TestDouble.getProjectName existsSync 4 options
                           TestDouble.zero)
                 = Some (Normal "foo-copy-1")) by (vm_compute; reflexivity).
  split; [reflexivity|]. split; [reflexivity|]. split; [exact Hrun|].
  destruct (@copy_result_is_first_free TestDouble.prng TestDouble.names
              TestDouble.locale existsSync options "foo" TestDouble.zero 4
              "foo-copy-1" eq_refl eq_refl Hrun)
    as (k & Hk & Heq & _ & Hfree & _).
  exists k. auto.
Defined.

Section CopyProbes.
Context `{Prng, Names, Locale}.
Variable existsSync : string -> bool.

Lemma copy_loop_probes (options : Options.t) (base : string) (fuel : nat) :
  forall j, exists n,
    probes (Main.copy_loop existsSync fuel options base
              (copy_candidate base j) (N.of_nat (S j)))
    = path_of options ∘ copy_candidate base <$> seq j n.
Proof.
  induction fuel as [|fuel IH]; intros j; [by exists 0%nat|].
  cbn [Main.copy_loop].
  destruct (existsSync _); cbn [probes probed].
  - replace (N.of_nat (S j) + 1)%N with (N.of_nat (S (S j))) by lia.
    change (base +:+ "-copy-" +:+ pretty (N.of_nat (S j)))
      with (copy_candidate base (S j)).
    destruct (IH (S j)) as [n ->]. by exists (S n).
  - by exists 1%nat.
Qed.
End CopyProbes.

(** X9: in copy-suffix mode no path is handed to [existsSync] twice,
    however long the loop runs. *)
Theorem copy_probes_distinct `{Prng, Names, Locale}
    (existsSync : string -> bool) (options : Options.t) (base : string)
    (random : unit_number) (fuel : nat) :
  Options.supplied (Options.name options) = None ->
  Options.supplied (Options.copy options) = Some base ->
  NoDup (probes (Main.getProjectName existsSync fuel options random)).
Proof.
  intros Hname Hcopy. unfold Main.getProjectName. rewrite Hname, Hcopy.
  destruct (copy_loop_probes existsSync options base fuel 0) as [n Hn].
  change (probes (Main.copy_loop existsSync fuel options base
                    (base +:+ "-copy") 1%N)
          = path_of options ∘ copy_candidate base <$> seq 0 n) in Hn.
  rewrite Hn.
  apply NoDup_fmap_2_strong; [|apply NoDup_seq].
  intros j k _ _ Heq. unfold path_of, compose in Heq.
  apply (inj (String.app (Options.root options))) in Heq.
  apply (inj (String.app "/")) in Heq.
  by apply copy_candidate_inj in Heq.
Qed.

Lemma copy_probes_distinct_witness :
  let options := TestDouble.options None (Some "foo") in
  Options.supplied (Options.name options) = None /\
  Options.supplied (Options.copy options) = Some "foo" /\
  NoDup (probes (TestDouble.getProjectName (fun _ => true) 7 options
                   TestDouble.zero)).
Proof.
  intros options. split; [reflexivity|]. split; [reflexivity|].
  exact (@copy_probes_distinct TestDouble.prng TestDouble.names
           TestDouble.locale (fun _ => true) options "foo" TestDouble.zero 7
           eq_refl eq_refl).
Defined.

(** X10: when every path exists and no name is given, [getProjectName]
    does not return: both loops have no bound of their own, and after any
    number of steps the run has made that many probes and is still
    looping. *)
Theorem exhausted_names_never_return `{Prng, Names, Locale}
    (existsSync : string -> bool) (options : Options.t)
    (random : unit_number) (fuel : nat) :
  (forall path, existsSync path = true) ->
  Options.supplied (Options.name options) = None ->
  result (Main.getProjectName existsSync fuel options random) = None /\
  length (probes (Main.getProjectName existsSync fuel options random)) = fuel.
Proof.
  intros Hall Hname. unfold Main.getProjectName. rewrite Hname.
  destruct (Options.supplied (Options.copy options)) as [base|].
  - generalize (base +:+ "-copy") 1%N.
    induction fuel as [|fuel IH]; intros x i; [by split|].
    cbn [Main.copy_loop]. rewrite Hall. cbn [result probes probed length].
    destruct (IH (base +:+ "-copy-" +:+ pretty i) (i + 1)%N) as [-> ->].
    by split.
  - destruct (constructor_fields
                {| RandomNameOptions.seed := None;
                   RandomNameOptions.separator := Some "-";
                   RandomNameOptions.capitalize := None;
                   RandomNameOptions.addNumbers := Some true |} random)
      as (s & _ & ->).
    assert (Hloop : forall randomName,
      RandomName.capitalize randomName = false ->
      result (Main.random_loop existsSync fuel options randomName) = None /\
      length (probes (Main.random_loop existsSync fuel options randomName))
      = fuel).
    { induction fuel as [|fuel IH]; intros randomName Hcap; [by split|].
      cbn [Main.random_loop].
      destruct (next_without_capitalize randomName Hcap) as [x Hx].
      pose proof (next_keeps_configuration randomName) as (_ & Hcap' & _).
      destruct (RandomName.next randomName) as [r randomName'].
      cbn [fst snd] in *. subst r. rewrite Hall.
      cbn [result probes probed length].
      destruct (IH randomName') as [-> ->]; [congruence|]. by split. }
    by apply Hloop.
Qed.

Lemma exhausted_names_never_return_witness :
  let options := TestDouble.options None None in
  (forall path : string, (fun _ : string => true) path = true) /\
  Options.supplied (Options.name options) = None /\
  result (TestDouble.getProjectName (fun _ => true) 9 options
            TestDouble.zero) = None.
Proof.
  intros options.
  assert (Hall : forall path : string, (fun _ : string => true) path = true)
    by reflexivity.
  split; [exact Hall|]. split; [reflexivity|].
  exact (proj1 (@exhausted_names_never_return TestDouble.prng
                  TestDouble.names TestDouble.locale (fun _ => true) options
                  TestDouble.zero 9 Hall eq_refl)).
Defined.

Section ReadFields.
Context `{Prng, Names, Locale}.
Variable existsSync : string -> bool.

Lemma copy_loop_root (options1 options2 : Options.t) (base : string)
    (fuel : nat) :
  Options.root options1 = Options.root options2 ->
  forall x i,
    Main.copy_loop existsSync fuel options1 base x i
    = Main.copy_loop existsSync fuel options2 base x i.
Proof.
  intros Hroot. induction fuel as [|fuel IH]; intros x i; [reflexivity|].
  cbn [Main.copy_loop]. rewrite Hroot, IH. reflexivity.
Qed.

Lemma random_loop_root (options1 options2 : Options.t) (fuel : nat) :
  Options.root options1 = Options.root options2 ->
  forall randomName,
    Main.random_loop existsSync fuel options1 randomName
    = Main.random_loop existsSync fuel options2 randomName.
Proof.
  intros Hroot. induction fuel as [|fuel IH]; intros randomName;
    [reflexivity|].
  cbn [Main.random_loop].
  destruct (RandomName.next randomName) as [[x|e] randomName'];
    [|reflexivity].
  rewrite Hroot, IH. reflexivity.
Qed.
End ReadFields.

(** X11: of the options [getProjectName] reads the root, the name and the
    copy base only, and of the last two only whether they are truthy and, if
    so, their value: two options values that agree there give the same
    result and the same probes. *)
Theorem getProjectName_reads_three_fields `{Prng, Names, Locale}
    (existsSync : string -> bool) (options1 options2 : Options.t)
    (random : unit_number) (fuel : nat) :
  Options.root options1 = Options.root options2 ->
  Options.supplied (Options.name options1)
    = Options.supplied (Options.name options2) ->
  Options.supplied (Options.copy options1)
    = Options.supplied (Options.copy options2) ->
  Main.getProjectName existsSync fuel options1 random
  = Main.getProjectName existsSync fuel options2 random.
Proof.
  intros Hroot Hname Hcopy. unfold Main.getProjectName.
  rewrite Hname, Hcopy.
  destruct (Options.supplied (Options.name options2)); [reflexivity|].
  destruct (Options.supplied (Options.copy options2)).
  - by apply copy_loop_root.
  - destruct (RandomName.constructor _ random); [|reflexivity].
    by apply random_loop_root.
Qed.

Lemma getProjectName_reads_three_fields_witness :
  let options1 :=
    {| Options.copy := Some ""; Options.help := Some true;
       Options.root := "/box"; Options.writeConfig := None;
       Options.name := Some ""; Options.add := Some ["jsr:@std/fs"];
       Options.vscode := Some true |} in
  let options2 := TestDouble.options None None in
  Options.root options1 = Options.root options2 /\
  Options.supplied (Options.name options1)
    = Options.supplied (Options.name options2) /\
  Options.supplied (Options.copy options1)
    = Options.supplied (Options.copy options2) /\
  TestDouble.getProjectName (directory "/box" ∅) 3 options1 TestDouble.zero
  = TestDouble.getProjectName (directory "/box" ∅) 3 options2 TestDouble.zero.
Proof.
  intros options1 options2.
  repeat (split; [reflexivity|]).
  exact (@getProjectName_reads_three_fields TestDouble.prng TestDouble.names
           TestDouble.locale (directory "/box" ∅) options1 options2
           TestDouble.zero 3 eq_refl eq_refl eq_refl).
Defined.

(** * Properties of [expandPath] *)

Section ExpandPath.
Variable env : gmap string string.
Variable cwd : string.

Lemma slice_app (a b : string) : Utils.slice (String.length a) (a +:+ b) = b.
Proof. induction a as [|c a IH]; [by destruct b|exact IH]. Qed.

Lemma slice_succ_app (a b : string) (c : ascii) :
  Utils.slice (S (String.length a)) (a +:+ String c b) = b.
Proof. induction a as [|d a IH]; [by destruct b|exact IH]. Qed.

Lemma replace_skip (s : string) :
  forall n,
    Utils.replace_variables env n s
    = Utils.replace_variables env 0 (Utils.slice n s).
Proof.
  induction s as [|c s IH]; intros [|n]; try reflexivity.
  cbn [Utils.replace_variables Utils.slice]. apply IH.
Qed.

Lemma replace_cons_plain (c : ascii) (s : string) :
  Ascii.eqb c "$" = false ->
  Utils.replace_variables env 0 (String c s)
  = String c (Utils.replace_variables env 0 s).
Proof.
  intros Hc. cbn [Utils.replace_variables Utils.match_variable].
  rewrite Hc. reflexivity.
Qed.

Lemma replace_app_plain (pre s : string) :
  has_dollar pre = false ->
  Utils.replace_variables env 0 (pre +:+ s)
  = pre +:+ Utils.replace_variables env 0 s.
Proof.
  induction pre as [|c pre IH]; [reflexivity|].
  cbn [has_dollar]. intros [Hc Hpre]%orb_false_iff.
  change (String c pre +:+ s) with (String c (pre +:+ s)).
  rewrite replace_cons_plain, IH by assumption. reflexivity.
Qed.

Lemma replace_plain (s : string) :
  has_dollar s = false -> Utils.replace_variables env 0 s = s.
Proof.
  intros Hs. rewrite <- (append_empty_r s) at 1.
  rewrite replace_app_plain by exact Hs. cbn [Utils.replace_variables].
  apply append_empty_r.
Qed.

Lemma word_prefix_name (name post : string) :
  Utils.all_word name = true -> Utils.starts_with_word post = false ->
  Utils.word_prefix (name +:+ post) = name.
Proof.
  induction name as [|c name IH]; intros Hname Hpost.
  - destruct post as [|d post]; [reflexivity|].
    change (Utils.word_prefix (String d post) = EmptyString).
    cbn [Utils.word_prefix Utils.starts_with_word] in *. by rewrite Hpost.
  - cbn [Utils.all_word] in Hname. apply andb_true_iff in Hname as [Hc Hname].
    change (String c name +:+ post) with (String c (name +:+ post)).
    cbn [Utils.word_prefix]. rewrite Hc, IH by assumption. reflexivity.
Qed.

Lemma replace_dollar_name (name post : string) :
  Utils.is_name name = true -> Utils.starts_with_word post = false ->
  Utils.replace_variables env 0 ("$" +:+ name +:+ post)
  = Utils.env_or_empty env name +:+ Utils.replace_variables env 0 post.
Proof.
  intros [Hne Hname]%andb_true_iff Hpost.
  change ("$" +:+ name +:+ post) with (String "$" (name +:+ post)).
  cbn [Utils.replace_variables Utils.match_variable].
  change (Ascii.eqb "$" "$") with true. cbv iota.
  rewrite (word_prefix_name name post Hname Hpost), Hne.
  cbn [Nat.pred]. rewrite replace_skip, slice_app. reflexivity.
Qed.

Lemma replace_braced_name (name post : string) :
  Utils.is_name name = true ->
  Utils.replace_variables env 0 ("${" +:+ name +:+ "}" +:+ post)
  = Utils.env_or_empty env name +:+ Utils.replace_variables env 0 post.
Proof.
  intros [Hne Hname]%andb_true_iff.
  change ("${" +:+ name +:+ "}" +:+ post)
    with (String "$" (String "{" (name +:+ String "}" post))).
  cbn [Utils.replace_variables Utils.match_variable Utils.word_prefix].
  change (Ascii.eqb "$" "$") with true.
  change (Utils.is_word "{") with false.
  change (Ascii.eqb "{" "{") with true. cbv iota. cbn [truthy].
  rewrite (word_prefix_name name (String "}" post) Hname eq_refl), Hne.
  rewrite slice_app. cbn [Utils.startsWith andb].
  change (Ascii.eqb "}" "}") with true. cbv iota.
  rewrite replace_skip.
  replace (Nat.pred (String.length name + 3)) with (S (S (String.length name)))
    by lia.
  cbn [Utils.slice].
  by rewrite replace_skip, slice_succ_app.
Qed.

(** X12: [expandPath] returns a path unchanged when it starts with neither
    a tilde nor a dot and holds no dollar sign. *)
Theorem expandPath_plain (path : string) :
  Utils.startsWith "~" path = false ->
  Utils.startsWith "." path = false ->
  has_dollar path = false ->
  Utils.expandPath env cwd path = path.
Proof.
  intros Htilde Hdot Hdollar. unfold Utils.expandPath.
  rewrite Htilde, Hdot. by apply replace_plain.
Qed.

Lemma startsWith_app (c : ascii) (pre s : string) :
  Utils.startsWith c pre = false ->
  Utils.startsWith c (String "$" s) = false ->
  Utils.startsWith c (pre +:+ String "$" s) = false.
Proof. destruct pre as [|d pre]; [intros _ Hs; exact Hs|intros Hp _; exact Hp]. Qed.

(** X13: in a path that starts with neither a tilde nor a dot, the first
    [$NAME] (the name taken as far as word characters go) is replaced by
    the value of the environment variable, or by nothing if it is unset;
    the value is inserted as it is, not expanded again, and the expansion
    goes on after the name. *)
Theorem expandPath_variable (pre name post : string) :
  Utils.startsWith "~" pre = false ->
  Utils.startsWith "." pre = false ->
  has_dollar pre = false ->
  Utils.is_name name = true ->
  Utils.starts_with_word post = false ->
  Utils.expandPath env cwd (pre +:+ "$" +:+ name +:+ post)
  = pre +:+ Utils.env_or_empty env name
        +:+ Utils.replace_variables env 0 post.
Proof.
  intros Htilde Hdot Hdollar Hname Hpost. unfold Utils.expandPath.
  change (pre +:+ "$" +:+ name +:+ post)
    with (pre +:+ String "$" (name +:+ post)).
  rewrite (startsWith_app "~" pre _ Htilde eq_refl).
  rewrite (startsWith_app "." pre _ Hdot eq_refl).
  rewrite replace_app_plain by exact Hdollar.
  change (String "$" (name +:+ post)) with ("$" +:+ name +:+ post).
  by rewrite replace_dollar_name.
Qed.

(** X14: the same for the braced form [${NAME}]: what follows the closing
    brace is not part of the name, even if it is a word character. *)
Theorem expandPath_braced_variable (pre name post : string) :
  Utils.startsWith "~" pre = false ->
  Utils.startsWith "." pre = false ->
  has_dollar pre = false ->
  Utils.is_name name = true ->
  Utils.expandPath env cwd (pre +:+ "${" +:+ name +:+ "}" +:+ post)
  = pre +:+ Utils.env_or_empty env name
        +:+ Utils.replace_variables env 0 post.
Proof.
  intros Htilde Hdot Hdollar Hname. unfold Utils.expandPath.
  change (pre +:+ "${" +:+ name +:+ "}" +:+ post)
    with (pre +:+ String "$" ("{" +:+ name +:+ "}" +:+ post)).
  rewrite (startsWith_app "~" pre _ Htilde eq_refl).
  rewrite (startsWith_app "." pre _ Hdot eq_refl).
  rewrite replace_app_plain by exact Hdollar.
  change (String "$" ("{" +:+ name +:+ "}" +:+ post))
    with ("${" +:+ name +:+ "}" +:+ post).
  by rewrite replace_braced_name.
Qed.




(** X16: when neither [HOME] nor [USERPROFILE] is set to a non-empty
    value, the leading tilde stays in the path; what follows it has its
    variables expanded as in any path. *)
Theorem expandPath_tilde_without_home (rest : string) :
  Utils.home env = None ->
  Utils.expandPath env cwd ("~" +:+ rest)
  = "~" +:+ Utils.replace_variables env 0 rest.
Proof.
  intros Hhome. unfold Utils.expandPath.
  change ("~" +:+ rest) with (String "~" rest).
  cbn [Utils.startsWith]. change (Ascii.eqb "~" "~") with true.
  change (Ascii.eqb "~" ".") with false. cbv iota. rewrite Hhome.
  cbn [Utils.startsWith]. change (Ascii.eqb "~" ".") with false. cbv iota.
  by rewrite replace_cons_plain.
Qed.

(** X17: when the working directory holds no dollar sign, a leading dot is
    replaced by the working directory, whatever follows the dot: only that
    one character is dropped, so [./x] becomes [cwd/x] and [../x] becomes
    [cwd./x]; what followed the dot has its variables expanded as in any
    path.  (The variables are expanded after the working directory is put
    in; a [$NAME] in the working directory would be expanded with them.) *)
Theorem expandPath_dot (rest : string) :
  has_dollar cwd = false ->
  Utils.expandPath env cwd ("." +:+ rest)
  = cwd +:+ Utils.replace_variables env 0 rest.
Proof.
  intros Hcwd. unfold Utils.expandPath.
  change ("." +:+ rest) with (String "." rest).
  cbn [Utils.startsWith slice1]. change (Ascii.eqb "." "~") with false.
  change (Ascii.eqb "." ".") with true. cbv iota.
  by apply replace_app_plain.
Qed.
End ExpandPath.

Lemma expandPath_plain_witness :
  Utils.startsWith "~" "/srv/box" = false /\
  Utils.startsWith "." "/srv/box" = false /\
  has_dollar "/srv/box" = false /\
  Utils.expandPath TestEdge.env "/work" "/srv/box" = "/srv/box".
Proof.
  repeat (split; [reflexivity|]).
  exact (expandPath_plain TestEdge.env "/work" "/srv/box"
           eq_refl eq_refl eq_refl).
Defined.

(** The value of [NESTED] holds a dollar and is inserted as it is; the
    second variable of the path is expanded in its turn. *)
Lemma expandPath_variable_witness :
  Utils.startsWith "~" "/srv/" = false /\
  Utils.startsWith "." "/srv/" = false /\
  has_dollar "/srv/" = false /\
  Utils.is_name "NESTED" = true /\
  Utils.starts_with_word "/$BOX" = false /\
  Utils.expandPath TestEdge.env "/work" "/srv/$NESTED/$BOX"
  = "/srv/$BOX/sandbox".
Proof.
  repeat (split; [reflexivity|]).
  exact (expandPath_variable TestEdge.env "/work" "/srv/" "NESTED" "/$BOX"
           eq_refl eq_refl eq_refl eq_refl eq_refl).
Defined.

(** A braced name may be followed by word characters; an unset variable
    expands to nothing. *)
Lemma expandPath_braced_variable_witness :
  Utils.startsWith "~" "/srv/" = false /\
  Utils.startsWith "." "/srv/" = false /\
  has_dollar "/srv/" = false /\
  Utils.is_name "BOX" = true /\
  Utils.expandPath TestEdge.env "/work" "/srv/${BOX}es/${UNSET}x"
  = "/srv/sandboxes/x".
Proof.
  repeat (split; [reflexivity|]).
  exact (expandPath_braced_variable TestEdge.env "/work" "/srv/" "BOX"
           "es/${UNSET}x" eq_refl eq_refl eq_refl eq_refl).
Defined.


(** No home directory, and a variable after the tilde. *)
Lemma expandPath_tilde_without_home_witness :
  let env : gmap string string := {[ "BOX" := "sandbox" ]} in
  Utils.home env = None /\
  Utils.expandPath env "/work" "~/$BOX/x" = "~/sandbox/x".
Proof.
  intros env.
  assert (Hhome : Utils.home env = None) by (vm_compute; reflexivity).
  split; [exact Hhome|].
  exact (expandPath_tilde_without_home env "/work" "/$BOX/x" Hhome).
Defined.

(** A path into the parent directory keeps one of its two dots. *)
Lemma expandPath_dot_witness :
  has_dollar "/work" = false /\
  Utils.expandPath TestEdge.env "/work" "../$BOX" = "/work./sandbox".
Proof.
  split; [reflexivity|].
  exact (expandPath_dot TestEdge.env "/work" "./$BOX" eq_refl).
Defined.

(** A working directory with a dollar sign in its name is expanded with
    the rest of the path. *)
Lemma expandPath_dot_expands_cwd :
  Utils.expandPath TestEdge.env "/work/$BOX" "./x" = "/work/sandbox/x".
Proof. vm_compute. reflexivity. Qed.

(** * Properties of [main] *)

Section Runs.
Context {A B : Type}.

Lemma bind_events (m : io A) (k : A -> io B) :
  (m ≫= k).1
  = m.1 ++ match m.2 with inr a => (k a).1 | inl _ => [] end.
Proof.
  destruct m as [events [s|a]]; cbn; [by rewrite app_nil_r|].
  by destruct (k a).
Qed.

Lemma bind_ext (m : io A) (k k' : A -> io B) :
  (forall a, k a = k' a) -> m ≫= k = m ≫= k'.
Proof.
  intros Hk. destruct m as [events [s|a]]; cbn; [reflexivity|].
  by rewrite Hk.
Qed.

Lemma bind_assoc {C : Type} (m : io A) (k : A -> io B) (k' : B -> io C) :
  (m ≫= k) ≫= k' = m ≫= (fun a => k a ≫= k').
Proof.
  destruct m as [events [s|a]]; cbn; [reflexivity|].
  destruct (k a) as [events' [s|b]]; cbn; [reflexivity|].
  destruct (k' b) as [events'' r]. by rewrite app_assoc.
Qed.

Lemma exits_loudly_bind (m : io A) (k : A -> io B) :
  exits_loudly m -> (forall a, exits_loudly (k a)) ->
  exits_loudly (m ≫= k).
Proof.
  intros Hm Hk events code. destruct m as [ev [s|a]]; cbn.
  - intros [= <- ->]. by apply Hm.
  - destruct (k a) as [ev' r] eqn:Hka. intros [= <- ->].
    destruct (Hk a ev' code Hka) as [-> [args Hargs]].
    split; [reflexivity|]. exists args. apply elem_of_app. by right.
Qed.

Lemma follows_bind (plan1 plan2 : list event) (m : io A) (k : A -> io B) :
  follows plan1 m ->
  (forall events a, m = (events, inr a) -> follows plan2 (k a)) ->
  follows (plan1 ++ plan2) (m ≫= k).
Proof.
  intros Hm Hk. destruct m as [ev [s|a]]; cbn in *.
  - by apply prefix_app_r.
  - specialize (Hk ev a eq_refl). destruct (k a) as [ev' [s|b]]; cbn in *;
      rewrite filter_app, Hm.
    + by apply prefix_app.
    + by rewrite Hk.
Qed.

Lemma follows_bind_nil (plan : list event) (m : io A) (k : A -> io B) :
  follows [] m ->
  (forall events a, m = (events, inr a) -> follows plan (k a)) ->
  follows plan (m ≫= k).
Proof. apply (follows_bind [] plan). Qed.
End Runs.

Lemma follows_emit (e : event) : is_command e = false -> follows [] (emit e).
Proof.
  intros He. change (filter is_command [e] = []).
  rewrite filter_cons, He. reflexivity.
Qed.

Lemma follows_ret {A : Type} (a : A) : follows [] (mret a : io A).
Proof. reflexivity. Qed.

Lemma follows_error {A : Type} (args : list string) :
  follows [] (emit (ConsoleError args);; halt (Exit 1) : io A).
Proof. cbn. reflexivity. Qed.

Lemma follows_failure {A : Type} (args args' : list string) :
  follows []
    (emit (ConsoleError args);; emit (ConsoleLog args');; halt (Exit 1)
     : io A).
Proof. cbn. reflexivity. Qed.


Lemma exits_loudly_emit (e : event) : exits_loudly (emit e).
Proof. intros events code [=]. Qed.

Lemma exits_loudly_ret {A : Type} (a : A) : exits_loudly (mret a : io A).
Proof. intros events code [=]. Qed.

Lemma exits_loudly_error {A : Type} (args : list string) :
  exits_loudly (emit (ConsoleError args);; halt (Exit 1) : io A).
Proof.
  intros events code [= <- <-]. split; [reflexivity|].
  exists args. left.
Qed.

Lemma exits_loudly_failure {A : Type} (args : list string) (e : event) :
  exits_loudly (emit (ConsoleError args);; emit e;; halt (Exit 1) : io A).
Proof.
  intros events code [= <- <-]. split; [reflexivity|].
  exists args. left.
Qed.

Section MainFacts.
Context `{Prng, Names, Locale, Host}.

Lemma exits_loudly_command (command : string) (args : list string)
    (cwd : option string) :
  exits_loudly (run_command command args cwd).
Proof.
  intros events code. unfold run_command.
  by destruct (command_output command args cwd).
Qed.

Lemma exits_loudly_resolve (r : resolution) : exits_loudly (resolve r).
Proof.
  intros events code. unfold resolve.
  by destruct (result r) as [[name|e]|].
Qed.

Lemma exits_loudly_unguarded (e : event) (answer : option thrown) :
  exits_loudly (unguarded e answer).
Proof. intros events code. by destruct answer. Qed.

Lemma exits_loudly_ensureRoot (root : string) :
  exits_loudly (ensureRoot root).
Proof.
  unfold ensureRoot. apply exits_loudly_bind; [apply exits_loudly_emit|].
  intros _. destruct (mkdirSync root true);
    [apply exits_loudly_error|apply exits_loudly_ret].
Qed.

Lemma exits_loudly_writeJson (path json : string) :
  exits_loudly (VSCode.writeJson path json).
Proof.
  unfold VSCode.writeJson. apply exits_loudly_bind; [apply exits_loudly_emit|].
  intros _. destruct (writeTextFileSync path json);
    [apply exits_loudly_error|apply exits_loudly_ret].
Qed.

Lemma exits_loudly_initVSCodeProject (fullPath : string) :
  exits_loudly (VSCode.initVSCodeProject fullPath).
Proof.
  unfold VSCode.initVSCodeProject.
  apply exits_loudly_bind; [apply exits_loudly_emit|]. intros _.
  apply exits_loudly_bind.
  { destruct (mkdirSync _ false);
      [apply exits_loudly_error|apply exits_loudly_ret]. }
  intros _. apply exits_loudly_bind; [apply exits_loudly_writeJson|].
  intros _. apply exits_loudly_bind; [apply exits_loudly_writeJson|].
  intros _. apply exits_loudly_bind; [apply exits_loudly_emit|].
  intros _. apply exits_loudly_bind; [apply exits_loudly_command|].
  intros [[] stderr];
    [apply exits_loudly_ret|apply exits_loudly_failure].
Qed.

Lemma exits_loudly_initProject (projectName : string) (options : Options.t) :
  exits_loudly (Program.initProject projectName options).
Proof.
  unfold Program.initProject.
  apply exits_loudly_bind; [apply exits_loudly_command|].
  intros [[] stderr];
    [apply exits_loudly_ret|apply exits_loudly_failure].
Qed.

Lemma exits_loudly_addLibraries (options : Options.t) (fullPath : string) :
  exits_loudly (Program.addLibraries options fullPath).
Proof.
  unfold Program.addLibraries.
  destruct (Options.add options) as [[|lib libs]|];
    try apply exits_loudly_ret.
  apply exits_loudly_bind; [apply exits_loudly_emit|]. intros _.
  apply exits_loudly_bind; [apply exits_loudly_command|].
  intros [[] stderr];
    [apply exits_loudly_ret|apply exits_loudly_failure].
Qed.
End MainFacts.

(** X18: once [getOptions] has returned, whenever [main] ends in
    [Deno.exit] the exit code is 1 and an error line has been written to
    [console.error] before. *)
Theorem main_exits_loudly `{Prng, Names, Locale, Host}
    (fuel : nat) (options : Options.t) (events : list event) (code : Z) :
  Program.main fuel options = (events, inl (Exit code)) ->
  code = 1 /\ exists args, ConsoleError args ∈ events.
Proof.
  revert events code. change (exits_loudly (Program.main fuel options)).
  unfold Program.main.
  apply exits_loudly_bind; [apply exits_loudly_ensureRoot|]. intros _.
  apply exits_loudly_bind; [apply exits_loudly_resolve|]. intros projectName.
  destruct (Options.supplied (Options.copy options)) as [copy|].
  - apply exits_loudly_bind; [apply exits_loudly_emit|]. intros _.
    apply exits_loudly_unguarded.
  - apply exits_loudly_bind; [apply exits_loudly_emit|]. intros _.
    apply exits_loudly_bind; [apply exits_loudly_initProject|]. intros _.
    apply exits_loudly_bind; [apply exits_loudly_addLibraries|]. intros _.
    apply exits_loudly_bind; [apply exits_loudly_emit|]. intros _.
    destruct (flag_set (Options.vscode options));
      [apply exits_loudly_initVSCodeProject|apply exits_loudly_ret].
Qed.

Section PlanFacts.
Context `{Prng, Names, Locale, Host}.

Lemma follows_command (command : string) (args : list string)
    (cwd : option string) :
  follows [CommandOutput command args cwd] (run_command command args cwd).
Proof.
  unfold run_command.
  destruct (command_output command args cwd); [apply prefix_cons|];
    reflexivity.
Qed.

Lemma follows_ensureRoot (root : string) : follows [] (ensureRoot root).
Proof.
  unfold ensureRoot. apply follows_bind_nil; [by apply follows_emit|].
  intros _ _ _. destruct (mkdirSync root true);
    [apply follows_error|apply follows_ret].
Qed.

Lemma follows_resolve (r : resolution) : follows [] (resolve r).
Proof.
  unfold resolve, follows.
  assert (filter is_command (ExistsSync <$> probes r) = []) as ->.
  { induction (probes r) as [|p l IH]; [reflexivity|].
    rewrite fmap_cons, filter_cons. exact IH. }
  by destruct (result r) as [[name|e]|].
Qed.

Lemma follows_writeJson (path json : string) :
  follows [] (VSCode.writeJson path json).
Proof.
  unfold VSCode.writeJson. apply follows_bind_nil; [by apply follows_emit|].
  intros _ _ _. destruct (writeTextFileSync path json);
    [apply follows_error|apply follows_ret].
Qed.

Lemma follows_initVSCodeProject (fullPath : string) :
  follows [CommandOutput "code" [fullPath] None]
    (VSCode.initVSCodeProject fullPath).
Proof.
  unfold VSCode.initVSCodeProject.
  apply follows_bind_nil; [by apply follows_emit|]. intros _ _ _.
  apply follows_bind_nil.
  { destruct (mkdirSync _ false); [apply follows_error|apply follows_ret]. }
  intros _ _ _. apply follows_bind_nil; [apply follows_writeJson|].
  intros _ _ _. apply follows_bind_nil; [apply follows_writeJson|].
  intros _ _ _. apply follows_bind_nil; [by apply follows_emit|].
  intros _ _ _.
  apply (follows_bind [CommandOutput "code" [fullPath] None] []);
    [apply follows_command|].
  intros _ [[] stderr] _; [apply follows_ret|apply follows_failure].
Qed.

Lemma follows_initProject (projectName : string) (options : Options.t) :
  follows
    [CommandOutput "deno" ["init"; projectName] (Some (Options.root options))]
    (Program.initProject projectName options).
Proof.
  unfold Program.initProject.
  apply (follows_bind [CommandOutput "deno" ["init"; projectName]
                         (Some (Options.root options))] []);
    [apply follows_command|].
  intros _ [[] stderr] _; [apply follows_ret|apply follows_failure].
Qed.

Lemma follows_addLibraries (options : Options.t) (fullPath : string) :
  follows
    match Options.add options with
    | Some (lib :: libs) =>
      [CommandOutput "deno" ("add" :: lib :: libs) (Some fullPath)]
    | Some [] | None => []
    end
    (Program.addLibraries options fullPath).
Proof.
  unfold Program.addLibraries.
  destruct (Options.add options) as [[|lib libs]|]; try apply follows_ret.
  apply follows_bind_nil; [by apply follows_emit|]. intros _ _ _.
  apply (follows_bind [CommandOutput "deno" ("add" :: lib :: libs)
                         (Some fullPath)] []);
    [apply follows_command|].
  intros _ [[] stderr] _; [apply follows_ret|apply follows_failure].
Qed.

Lemma resolve_returns (r : resolution) (events : list event) (name : string) :
  resolve r = (events, inr name) -> result r = Some (Normal name).
Proof.
  unfold resolve. destruct (result r) as [[name'|e]|]; intros [=].
  by subst.
Qed.
End PlanFacts.

(** X19: without a copy base the commands [main] runs are, in this order,
    [deno init NAME] in the root, [deno add LIBS...] in the project
    directory if there are libraries to add, and [code PATH] if the editor
    is asked for: all of them if [main] returns, a first part of them if it
    stops early. *)
Theorem main_follows_plan `{Prng, Names, Locale, Host}
    (fuel : nat) (options : Options.t) (projectName : string) :
  Options.supplied (Options.copy options) = None ->
  result (Main.getProjectName existsSync fuel options Math_random)
  = Some (Normal projectName) ->
  follows (plan options projectName) (Program.main fuel options).
Proof.
  intros Hcopy Hname. unfold Program.main, plan.
  apply follows_bind_nil; [apply follows_ensureRoot|]. intros _ _ _.
  apply follows_bind_nil; [apply follows_resolve|].
  intros events name Hresolve. apply resolve_returns in Hresolve.
  rewrite Hname in Hresolve. injection Hresolve as <-.
  rewrite Hcopy.
  apply follows_bind_nil; [by apply follows_emit|]. intros _ _ _.
  apply follows_bind; [apply follows_initProject|]. intros _ _ _.
  apply follows_bind; [apply follows_addLibraries|]. intros _ _ _.
  apply follows_bind_nil; [by apply follows_emit|]. intros _ _ _.
  destruct (flag_set (Options.vscode options));
    [apply follows_initVSCodeProject|apply follows_ret].
Qed.

Section EventFacts.
Context {A B : Type}.
Variable P : event -> Prop.

Lemma events_bind (m : io A) (k : A -> io B) :
  (forall e, e ∈ m.1 -> P e) ->
  (forall a e, e ∈ (k a).1 -> P e) ->
  forall e, e ∈ (m ≫= k).1 -> P e.
Proof.
  intros Hm Hk e. rewrite bind_events, elem_of_app. intros [He|He].
  - by apply Hm.
  - destruct m.2 as [s|a]; [by apply elem_of_nil in He|].
    by apply (Hk a).
Qed.

Lemma returned_bind (m : io A) (k : A -> io B) :
  (forall events a, m = (events, inr a) -> forall e, e ∈ events -> P e) ->
  (forall a events b, k a = (events, inr b) -> forall e, e ∈ events -> P e) ->
  forall events b,
    (m ≫= k) = (events, inr b) -> forall e, e ∈ events -> P e.
Proof.
  intros Hm Hk events b. destruct m as [ev [s|a]]; cbn; [intros [=]|].
  destruct (k a) as [ev' r] eqn:Hka. intros [= <- ->] e.
  rewrite elem_of_app. intros [He|He].
  - by apply (Hm ev a).
  - by apply (Hk a ev' b).
Qed.
End EventFacts.

Section SuccessFacts.
Context `{Prng, Names, Locale, Host}.

Lemma returned_emit (e : event) (events : list event) (a : unit) :
  succeeded e ->
  emit e = (events, inr a) -> forall e', e' ∈ events -> succeeded e'.
Proof.
  intros He [= <-] e'. rewrite list_elem_of_singleton. by intros ->.
Qed.

Lemma returned_ret {A : Type} (a b : A) (events : list event) :
  (mret a : io A) = (events, inr b) ->
  forall e, e ∈ events -> succeeded e.
Proof. intros [= <- _] e He. by apply elem_of_nil in He. Qed.

Lemma returned_guarded (e : event) (answer : option thrown)
    (line : thrown -> list string) (events : list event) (a : unit) :
  (answer = None -> succeeded e) ->
  (emit e;;
   match answer with
   | None => mret tt
   | Some err => emit (ConsoleError (line err));; halt (Exit 1)
   end) = (events, inr a) ->
  forall e', e' ∈ events -> succeeded e'.
Proof.
  intros He. destruct answer as [err|]; [intros [=]|].
  intros [= <-] e'. rewrite list_elem_of_singleton. intros ->. by apply He.
Qed.

Lemma returned_checked (command : string) (args : list string)
    (cwd : option string) (line : list string) (events : list event)
    (a : unit) :
  ('(success, stderr) ← run_command command args cwd;
   if (success : bool) then mret tt
   else emit (ConsoleError line);; emit (ConsoleLog [stderr]);;
        halt (Exit 1)) = (events, inr a) ->
  forall e, e ∈ events -> succeeded e.
Proof.
  unfold run_command.
  destruct (command_output command args cwd) as [err|[[] stderr]] eqn:Hout;
    intros [= <-] e; rewrite list_elem_of_singleton; intros ->.
  by exists stderr.
Qed.

Lemma returned_writeJson (path json : string) (events : list event)
    (a : unit) :
  VSCode.writeJson path json = (events, inr a) ->
  forall e, e ∈ events -> succeeded e.
Proof.
  apply (returned_guarded (WriteTextFileSync path json)
           (writeTextFileSync path json)
           (fun err => ["Error creating settings.json: " +:+ describe err])).
  by intros.
Qed.

Lemma returned_guarded_then {B : Type} (e : event) (answer : option thrown)
    (line : thrown -> list string) (k : io B) :
  (answer = None -> succeeded e) ->
  (forall events b, k = (events, inr b) ->
     forall e', e' ∈ events -> succeeded e') ->
  forall events b,
    (emit e;;
     match answer with
     | Some err => emit (ConsoleError (line err));; halt (Exit 1)
     | None => mret tt
     end;;
     k) = (events, inr b) ->
    forall e', e' ∈ events -> succeeded e'.
Proof.
  intros He Hk events b. destruct answer as [err|]; [intros [=]|].
  destruct k as [ev r] eqn:Hkeq. cbn. intros [= <- ->] e'.
  rewrite elem_of_cons. intros [->|He'].
  - by apply He.
  - by apply (Hk ev b).
Qed.

Lemma returned_log {B : Type} (args : list string) (k : io B) :
  (forall events b, k = (events, inr b) ->
     forall e, e ∈ events -> succeeded e) ->
  forall events b,
    (emit (ConsoleLog args);; k) = (events, inr b) ->
    forall e, e ∈ events -> succeeded e.
Proof.
  intros Hk. apply returned_bind; [|by intros _].
  intros events a. by apply returned_emit.
Qed.

Lemma returned_initVSCodeProject (fullPath : string) (events : list event)
    (a : unit) :
  VSCode.initVSCodeProject fullPath = (events, inr a) ->
  forall e, e ∈ events -> succeeded e.
Proof.
  unfold VSCode.initVSCodeProject. revert events a.
  apply (returned_guarded_then
           (MkdirSync (path_join fullPath ".vscode") false)
           (mkdirSync (path_join fullPath ".vscode") false)
           (fun err =>
              ["Error creating .vscode directory: " +:+ describe err]));
    [by intros|].
  apply returned_bind; [apply returned_writeJson|]. intros _.
  apply returned_bind; [apply returned_writeJson|]. intros _.
  apply returned_log. apply returned_checked.
Qed.

Lemma returned_ensureRoot (root : string) (events : list event) (a : unit) :
  ensureRoot root = (events, inr a) ->
  forall e, e ∈ events -> succeeded e.
Proof.
  apply (returned_guarded (MkdirSync root true) (mkdirSync root true)
           (fun err => ["Error creating root directory: " +:+ describe err])).
  by intros.
Qed.

Lemma returned_resolve (r : resolution) (events : list event) (name : string) :
  resolve r = (events, inr name) ->
  forall e, e ∈ events -> succeeded e.
Proof.
  intros [= <- _] e. rewrite list_elem_of_fmap. by intros (path & -> & _).
Qed.

Lemma returned_addLibraries (options : Options.t) (fullPath : string)
    (events : list event) (a : unit) :
  Program.addLibraries options fullPath = (events, inr a) ->
  forall e, e ∈ events -> succeeded e.
Proof.
  unfold Program.addLibraries. revert events a.
  destruct (Options.add options) as [[|lib libs]|];
    try (intros events a; apply returned_ret).
  apply returned_log. apply returned_checked.
Qed.

Lemma returned_unguarded (e : event) (answer : option thrown)
    (events : list event) (a : unit) :
  (answer = None -> succeeded e) ->
  unguarded e answer = (events, inr a) ->
  forall e', e' ∈ events -> succeeded e'.
Proof.
  intros He. destruct answer as [err|]; [intros [=]|].
  intros [= <-] e'. rewrite list_elem_of_singleton. intros ->. by apply He.
Qed.
End SuccessFacts.

(** X20: [main] returns normally only if everything it did after
    [getOptions] went well: every directory creation, copy and file write
    of the run returned without throwing and every command of the run
    reported success. *)
Theorem main_returns_after_success `{Prng, Names, Locale, Host}
    (fuel : nat) (options : Options.t) (events : list event) (e : event) :
  Program.main fuel options = (events, inr tt) ->
  e ∈ events -> succeeded e.
Proof.
  intros Hrun. revert e. revert Hrun. generalize tt. revert events.
  unfold Program.main.
  apply returned_bind; [apply returned_ensureRoot|]. intros _.
  apply returned_bind; [apply returned_resolve|]. intros projectName.
  destruct (Options.supplied (Options.copy options)) as [copy|].
  - apply returned_log. intros events a. by apply returned_unguarded.
  - apply returned_log.
    apply returned_bind; [apply returned_checked|]. intros _.
    apply returned_bind; [apply returned_addLibraries|]. intros _.
    apply returned_log.
    destruct (flag_set (Options.vscode options));
      [apply returned_initVSCodeProject|].
    intros events a. apply returned_ret.
Qed.

(** X21: with a copy base [main], once [getOptions] has returned, runs no
    command and writes no file, also when libraries to add or the editor
    are asked for: apart from console output it creates the root, probes
    paths and copies the base directory. *)
Theorem copy_mode_only_copies `{Prng, Names, Locale, Host}
    (fuel : nat) (options : Options.t) (copy : string) (e : event) :
  Options.supplied (Options.copy options) = Some copy ->
  e ∈ (Program.main fuel options).1 ->
  (exists args, e = ConsoleLog args) \/
  (exists args, e = ConsoleError args) \/
  e = MkdirSync (Options.root options) true \/
  (exists path, e = ExistsSync path) \/
  exists projectName,
    e = CopySync (path_join (Options.root options) copy)
          (path_join (Options.root options) projectName).
Proof.
  intros Hcopy. revert e. unfold Program.main. rewrite Hcopy.
  apply events_bind.
  { intros e. unfold ensureRoot. destruct (mkdirSync _ true); cbn;
      rewrite ?elem_of_cons, elem_of_nil; intros [->|[->|[]]] || intros [->|[]];
      eauto 10. }
  intros _. apply events_bind.
  { intros e. cbn. rewrite list_elem_of_fmap. intros (path & -> & _).
    eauto 10. }
  intros projectName e. unfold unguarded. destruct (copySync _ _); cbn;
    rewrite ?elem_of_cons, elem_of_nil; intros [->|[->|[]]]; eauto 10.
Qed.

(** X22: with both a name and a copy base, and the root created, [main]
    copies the base directory onto the named one without probing any path:
    an existing directory of that name is not noticed, and what [copySync]
    throws is not caught. *)
Theorem named_copy_is_unchecked `{Prng, Names, Locale, Host}
    (fuel : nat) (options : Options.t) (name copy : string) :
  Options.supplied (Options.name options) = Some name ->
  Options.supplied (Options.copy options) = Some copy ->
  mkdirSync (Options.root options) true = None ->
  Program.main fuel options
  = ([MkdirSync (Options.root options) true;
      ConsoleLog ["Copying project: " +:+ copy +:+ " to " +:+ name];
      CopySync (path_join (Options.root options) copy)
        (path_join (Options.root options) name)],
     match copySync (path_join (Options.root options) copy)
             (path_join (Options.root options) name) with
     | Some err => inl (Uncaught err)
     | None => inr tt
     end).
Proof.
  intros Hname Hcopy Hroot.
  unfold Program.main, ensureRoot, Main.getProjectName, unguarded.
  rewrite Hname, Hcopy, Hroot. cbn. by destruct (copySync _ _).
Qed.

(** X23: when the root directory cannot be created, [main] reports the
    error, exits with 1 and does nothing else after [getOptions]: no probe,
    no command. *)
Theorem root_failure_stops `{Prng, Names, Locale, Host}
    (fuel : nat) (options : Options.t) (err : thrown) :
  mkdirSync (Options.root options) true = Some err ->
  Program.main fuel options
  = ([MkdirSync (Options.root options) true;
      ConsoleError ["Error creating root directory: " +:+ describe err]],
     inl (Exit 1)).
Proof.
  intros Hroot. unfold Program.main, ensureRoot. by rewrite Hroot.
Qed.

(** X24: when [launch.json] cannot be written, [initVSCodeProject] reports
    an error creating [settings.json], the message [writeJson] has for
    every file, and exits with 1 without opening the editor. *)
Theorem launch_failure_names_settings `{Host}
    (fullPath : string) (err : thrown) :
  let vscodeDir := path_join fullPath ".vscode" in
  let settingsFile := path_join vscodeDir "settings.json" in
  let launchFile := path_join vscodeDir "launch.json" in
  mkdirSync vscodeDir false = None ->
  writeTextFileSync settingsFile settings_json = None ->
  writeTextFileSync launchFile launchSettings_json = Some err ->
  VSCode.initVSCodeProject fullPath
  = ([MkdirSync vscodeDir false;
      WriteTextFileSync settingsFile settings_json;
      WriteTextFileSync launchFile launchSettings_json;
      ConsoleError ["Error creating settings.json: " +:+ describe err]],
     inl (Exit 1)).
Proof.
  intros vscodeDir settingsFile launchFile Hdir Hsettings Hlaunch.
  unfold VSCode.initVSCodeProject, VSCode.writeJson.
  fold vscodeDir. fold settingsFile. fold launchFile.
  by rewrite Hdir, Hsettings, Hlaunch.
Qed.

(** X25: when the editor is not asked for, the older monolithic [main]
    and the [main] of main.ts do the same: same events in the same order,
    same end.  (With the editor asked for, main.ts also writes
    [launch.json].) *)
Theorem monolith_main_agrees `{Prng, Names, Locale, Host}
    (fuel : nat) (options : Options.t) :
  flag_set (Options.vscode options) = false ->
  MonolithProgram.main fuel options = Program.main fuel options.
Proof.
  intros Hflag. unfold MonolithProgram.main, Program.main.
  assert (Monolith.getProjectName existsSync fuel options Math_random
          = Main.getProjectName existsSync fuel options Math_random) as ->.
  { unfold Monolith.getProjectName, Main.getProjectName.
    destruct (Options.supplied (Options.name options)); [reflexivity|].
    destruct (Options.supplied (Options.copy options)).
    - apply copy_loop_agrees.
    - destruct (RandomName.constructor _ Math_random); [|reflexivity].
      apply random_loop_agrees. }
  rewrite Hflag. apply bind_ext. intros _. apply bind_ext.
  intros projectName.
  destruct (Options.supplied (Options.copy options)); [reflexivity|].
  apply bind_ext. intros _. unfold Program.initProject.
  rewrite bind_assoc. apply bind_ext. intros [success stderr].
  reflexivity.
Qed.

(** [deno init] goes well, [deno add] fails: the run prints the error and
    the stderr of the command and exits with 1. *)
Lemma main_exits_loudly_witness :
  let options := TestHost.options (Some "bar") None ["x"] false in
  let events :=
    [MkdirSync "/box" true; ConsoleLog ["Creating project: bar"];
     CommandOutput "deno" ["init"; "bar"] (Some "/box");
     ConsoleLog ["Adding libraries:"; "x"];
     CommandOutput "deno" ["add"; "x"] (Some "/box/bar");
     ConsoleError ["Error adding libraries"];
     ConsoleLog ["no such package"]] in
  TestHost.main 0 options = (events, inl (Exit 1)) /\
  1 = 1 /\ exists args, ConsoleError args ∈ events.
Proof.
  intros options events. split; [reflexivity|].
  exact (@main_exits_loudly TestDouble.prng TestDouble.names
           TestDouble.locale TestHost.host 0 options events 1 eq_refl).
Defined.

(** With a library to add and the editor asked for, the plan has three
    commands; [deno add] fails, and the run has made the first two. *)
Lemma main_follows_plan_witness :
  let options := TestHost.options (Some "bar") None ["x"] true in
  Options.supplied (Options.copy options) = None /\
  result (@Main.getProjectName TestDouble.prng TestDouble.names
            TestDouble.locale (@existsSync TestHost.host) 0 options
            (@Math_random TestHost.host))
  = Some (Normal "bar") /\
  @plan TestHost.host options "bar"
  = [CommandOutput "deno" ["init"; "bar"] (Some "/box");
     CommandOutput "deno" ["add"; "x"] (Some "/box/bar");
     CommandOutput "code" ["/box/bar"] None] /\
  follows (@plan TestHost.host options "bar") (TestHost.main 0 options).
Proof.
  intros options. split; [reflexivity|]. split; [reflexivity|].
  split; [reflexivity|].
  exact (@main_follows_plan TestDouble.prng TestDouble.names
           TestDouble.locale TestHost.host 0 options "bar" eq_refl eq_refl).
Defined.

Lemma main_returns_after_success_witness :
  let options := TestHost.options None (Some "foo") [] false in
  let events :=
    [MkdirSync "/box" true; ExistsSync "/box/foo-copy";
     ConsoleLog ["Copying project: foo to foo-copy"];
     CopySync "/box/foo" "/box/foo-copy"] in
  TestHost.main 3 options = (events, inr tt) /\
  CopySync "/box/foo" "/box/foo-copy" ∈ events /\
  @succeeded TestHost.host (CopySync "/box/foo" "/box/foo-copy").
Proof.
  intros options events.
  assert (Hin : CopySync "/box/foo" "/box/foo-copy" ∈ events)
    by (do 3 apply list_elem_of_further; apply list_elem_of_here).
  split; [reflexivity|]. split; [exact Hin|].
  exact (@main_returns_after_success TestDouble.prng TestDouble.names
           TestDouble.locale TestHost.host 3 options events
           (CopySync "/box/foo" "/box/foo-copy") eq_refl Hin).
Defined.

(** Libraries to add and the editor asked for, but a copy base: the run
    copies and does nothing else. *)
Lemma copy_mode_only_copies_witness :
  let options := TestHost.options None (Some "foo") ["x"] true in
  let e := CopySync "/box/foo" "/box/foo-copy" in
  Options.supplied (Options.copy options) = Some "foo" /\
  e ∈ (TestHost.main 3 options).1 /\
  ((exists args, e = ConsoleLog args) \/
   (exists args, e = ConsoleError args) \/
   e = MkdirSync "/box" true \/
   (exists path, e = ExistsSync path) \/
   exists projectName,
     e = CopySync (@path_join TestHost.host "/box" "foo")
           (@path_join TestHost.host "/box" projectName)).
Proof.
  intros options e.
  assert (Hin : e ∈ (TestHost.main 3 options).1)
    by (do 3 apply list_elem_of_further; apply list_elem_of_here).
  split; [reflexivity|]. split; [exact Hin|].
  exact (@copy_mode_only_copies TestDouble.prng TestDouble.names
           TestDouble.locale TestHost.host 3 options "foo" e eq_refl Hin).
Defined.

(** The project [foo] exists and is given both as the name and as the copy
    base: it is copied onto itself, unprobed. *)
Lemma named_copy_is_unchecked_witness :
  let options := TestHost.options (Some "foo") (Some "foo") [] false in
  Options.supplied (Options.name options) = Some "foo" /\
  Options.supplied (Options.copy options) = Some "foo" /\
  @mkdirSync TestHost.host "/box" true = None /\
  @existsSync TestHost.host "/box/foo" = true /\
  TestHost.main 0 options
  = ([MkdirSync "/box" true;
      ConsoleLog ["Copying project: foo to foo"];
      CopySync "/box/foo" "/box/foo"], inr tt).
Proof.
  intros options. repeat (split; [reflexivity|]).
  exact (@named_copy_is_unchecked TestDouble.prng TestDouble.names
           TestDouble.locale TestHost.host 0 options "foo" "foo"
           eq_refl eq_refl eq_refl).
Defined.

Lemma root_failure_stops_witness :
  @mkdirSync TestHost.sealed "/sealed" true
  = Some (ErrorObject "permission denied") /\
  @Program.main TestDouble.prng TestDouble.names TestDouble.locale
    TestHost.sealed 3 TestHost.sealed_options
  = ([MkdirSync "/sealed" true;
      ConsoleError ["Error creating root directory: permission denied"]],
     inl (Exit 1)).
Proof.
  split; [reflexivity|].
  exact (@root_failure_stops TestDouble.prng TestDouble.names
           TestDouble.locale TestHost.sealed 3 TestHost.sealed_options
           (ErrorObject "permission denied") eq_refl).
Defined.

Lemma launch_failure_names_settings_witness :
  @mkdirSync TestHost.sealed "/box/bar/.vscode" false = None /\
  @writeTextFileSync TestHost.sealed "/box/bar/.vscode/settings.json"
    settings_json = None /\
  @writeTextFileSync TestHost.sealed "/box/bar/.vscode/launch.json"
    (@launchSettings_json TestHost.sealed) = Some (OtherValue "read-only") /\
  @VSCode.initVSCodeProject TestHost.sealed "/box/bar"
  = ([MkdirSync "/box/bar/.vscode" false;
      WriteTextFileSync "/box/bar/.vscode/settings.json" settings_json;
      WriteTextFileSync "/box/bar/.vscode/launch.json" "{}";
      ConsoleError ["Error creating settings.json: read-only"]],
     inl (Exit 1)).
Proof.
  repeat (split; [reflexivity|]).
  exact (@launch_failure_names_settings TestHost.sealed "/box/bar"
           (OtherValue "read-only") eq_refl eq_refl eq_refl).
Defined.

Lemma monolith_main_agrees_witness :
  let options := TestHost.options None None ["x"] false in
  flag_set (Options.vscode options) = false /\
  @MonolithProgram.main TestDouble.prng TestDouble.names TestDouble.locale
    TestHost.host 3 options
  = TestHost.main 3 options.
Proof.
  intros options. split; [reflexivity|].
  exact (@monolith_main_agrees TestDouble.prng TestDouble.names
           TestDouble.locale TestHost.host 3 options eq_refl).
Defined.
